(** * Bintray package-info hook: a shallow embedding of [hooks/bintray_updater.py]

    The hook reads the published record of a package from Bintray, compares it
    with the attributes of the uploaded recipe and PATCHes the fields that are
    out of date.  Every function of the module is embedded below under its own
    name.  Python text is modelled by Rocq strings, one [ascii] standing for one
    character, names and addresses being taken in the 8-bit range;
    exceptions are values of an error monad; the environment, the [git]
    sub-process, the HTTP transport, the Conan inspection API and the
    regular expressions that the matcher of this file does not cover are
    fields of a [World] record. *)

From Stdlib Require Import String Ascii ZArith List Bool Lia.
From stdpp Require Import base option gmap strings list pretty.

Local Open Scope string_scope.
Local Open Scope Z_scope.

(** ** Exceptions and the error monad *)

Inductive exn_class :=
  | KeyError | TypeError | AttributeError | IndexError | ValueError
  | HTTPError | ConanException | ReError | PlainException | OtherException
  | KeyboardInterrupt | SystemExit.

(** [except Exception] catches every class that derives from [Exception];
    [KeyboardInterrupt] and [SystemExit] derive from [BaseException] only. *)
Definition is_Exception (c : exn_class) : bool :=
  match c with
  | KeyboardInterrupt | SystemExit => false
  | _ => true
  end.

(** An exception object: its class and the text [str(error)] gives. *)
Record exn := mk_exn { exn_cls : exn_class; exn_str : string }.

Inductive result (A : Type) :=
  | Ok (a : A)
  | Raise (e : exn).
Arguments Ok {A} a.
Arguments Raise {A} e.

#[global] Instance result_ret : MRet result := fun A a => Ok a.
#[global] Instance result_bind : MBind result := fun A B f r =>
  match r with
  | Ok a => f a
  | Raise e => Raise e
  end.

Definition raise {A} (c : exn_class) (msg : string) : result A :=
  Raise (mk_exn c msg).

Definition returns {A} (r : result A) : bool :=
  match r with Ok _ => true | Raise _ => false end.

(** ** Python text *)

Definition chr (n : nat) : ascii := ascii_of_nat n.
Definition LF : ascii := chr 10.
Definition CR : ascii := chr 13.

Definition str1 (c : ascii) : string := String c "".

(** [len(s)] *)
Definition py_len (s : string) : Z := Z.of_nat (String.length s).

(** [s[:n]] for a non-negative count. *)
Fixpoint str_take (n : nat) (s : string) : string :=
  match n, s with
  | S n', String c s' => String c (str_take n' s')
  | _, _ => ""
  end.

(** [s[:stop]]: a negative [stop] counts from the end, and the bound is
    clipped to the string. *)
Definition py_slice_to (s : string) (stop : Z) : string :=
  let stop' := if stop <? 0 then Z.max 0 (py_len s + stop) else stop in
  str_take (Z.to_nat stop') s.

(** [s.rfind(c)] for a one-character needle: the highest index holding [c],
    or [-1]. *)
Fixpoint py_rfind (s : string) (c : ascii) : Z :=
  match s with
  | "" => -1
  | String a s' =>
      let r := py_rfind s' c in
      if 0 <=? r then r + 1
      else if Ascii.eqb a c then 0 else -1
  end.

(** [s.startswith(p)] *)
Definition py_startswith (s p : string) : bool := String.prefix p s.

(** [sub in s] *)
Fixpoint py_contains (sub s : string) : bool :=
  String.prefix sub s ||
  match s with
  | "" => false
  | String _ s' => py_contains sub s'
  end.

(** [str.isspace] on one character (code points below 256). *)
Definition is_space (c : ascii) : bool :=
  let n := nat_of_ascii c in
  ((9 <=? n) && (n <=? 13) || (28 <=? n) && (n <=? 32)
   || (n =? 133) || (n =? 160))%nat.

Fixpoint py_lstrip (s : string) : string :=
  match s with
  | String c s' => if is_space c then py_lstrip s' else s
  | "" => ""
  end.

Fixpoint py_rstrip (s : string) : string :=
  match s with
  | "" => ""
  | String c s' =>
      match py_rstrip s' with
      | "" => if is_space c then "" else str1 c
      | r => String c r
      end
  end.

(** [s.strip()] *)
Definition py_strip (s : string) : string := py_rstrip (py_lstrip s).

(** Line boundaries of [str.splitlines] (code points below 256). *)
Definition is_linebreak (c : ascii) : bool :=
  let n := nat_of_ascii c in
  ((10 <=? n) && (n <=? 13) || (28 <=? n) && (n <=? 30) || (n =? 133))%nat.

(** [s.splitlines()]: [cur] is the line being read, reversed; [after_cr]
    tells that the previous character was a carriage return, so that a line
    feed directly after it belongs to the same boundary. *)
Fixpoint splitlines_go (after_cr : bool) (cur : option string) (s : string)
  : list string :=
  match s with
  | "" => match cur with Some l => [String.rev l] | None => [] end
  | String c s' =>
      if after_cr && Ascii.eqb c LF then splitlines_go false cur s'
      else if is_linebreak c then
        String.rev (default "" cur) :: splitlines_go (Ascii.eqb c CR) None s'
      else splitlines_go false (Some (String c (default "" cur))) s'
  end.

Definition py_splitlines (s : string) : list string :=
  splitlines_go false None s.

(** [s.replace(c, empty, 1)] for a one-character [c]: drop its first
    occurrence. *)
Fixpoint py_remove_first (c : ascii) (s : string) : string :=
  match s with
  | "" => ""
  | String a s' => if Ascii.eqb a c then s' else String a (py_remove_first c s')
  end.

(** [s.upper()] for text whose letters are the ASCII ones. *)
Definition upper_char (c : ascii) : ascii :=
  let n := nat_of_ascii c in
  if ((97 <=? n) && (n <=? 122))%nat then chr (n - 32) else c.

Fixpoint py_upper (s : string) : string :=
  match s with
  | "" => ""
  | String c s' => String (upper_char c) (py_upper s')
  end.

(** [sep.join(l)] *)
Definition py_join (sep : string) (l : list string) : string :=
  String.concat sep l.

(** [fmt.format] applied to [args], for format strings whose replacement fields are all
    the automatic field [{}]: every field takes the next argument, and a
    field with no argument left raises [IndexError]. *)
Fixpoint py_format (fmt : string) (args : list string) : result string :=
  match fmt with
  | "" => Ok ""
  | String c fmt' =>
      if Ascii.eqb c "{" then
        match fmt' with
        | String d fmt'' =>
            if Ascii.eqb d "}" then
              match args with
              | a :: args' => r ← py_format fmt'' args'; Ok (a +:+ r)
              | [] =>
                  raise IndexError
                    "Replacement index 0 out of range for positional args tuple"
              end
            else raise ValueError "unsupported format string"
        | "" => raise ValueError "Single '{' encountered in format string"
        end
      else r ← py_format fmt' args; Ok (String c r)
  end.

(** [fmt % arg] for a single string argument: [%s] takes the argument and
    [%%] is a percent sign.  An argument that no conversion took is an error,
    as is a second [%s]. *)
Fixpoint percent_go (fmt : string) (arg : option string) : result string :=
  match fmt with
  | "" =>
      match arg with
      | Some _ =>
          raise TypeError
            "not all arguments converted during string formatting"
      | None => Ok ""
      end
  | String c fmt' =>
      if Ascii.eqb c "%" then
        match fmt' with
        | String d fmt'' =>
            if Ascii.eqb d "s" then
              match arg with
              | Some a => r ← percent_go fmt'' None; Ok (a +:+ r)
              | None => raise TypeError "not enough arguments for format string"
              end
            else if Ascii.eqb d "%" then
              r ← percent_go fmt'' arg; Ok (String "%" r)
            else raise ValueError "unsupported format character"
        | "" => raise ValueError "incomplete format"
        end
      else r ← percent_go fmt' arg; Ok (String c r)
  end.

Definition py_percent (fmt arg : string) : result string :=
  percent_go fmt (Some arg).

(** ** Regular expressions

    The fragment of Python's [re] syntax the module's patterns are written
    in: literal characters, escaped punctuation, [.], the greedy postfix
    operators [*] and [?] on one character, [$] and capturing groups. *)
Module Re.

Inductive atom :=
  | Lit (c : ascii)
  | Dot.

Inductive tok :=
  | One (a : atom)
  | Star (a : atom)
  | Opt (a : atom)
  | Eos
  | Open (i : nat)
  | Close (i : nat).

(** What the parser holds back until it has seen the next character. *)
Inductive pending :=
  | NoAtom
  | Atom (a : atom)
  | Quantified
  | NoRepeat.

Definition flush (p : pending) (acc : list tok) : list tok :=
  match p with
  | Atom a => One a :: acc
  | _ => acc
  end.

Definition is_alnum (c : ascii) : bool :=
  let n := nat_of_ascii c in
  ((48 <=? n) && (n <=? 57) || (65 <=? n) && (n <=? 90)
   || (97 <=? n) && (n <=? 122))%nat.

(** Characters that start a construct outside the fragment. *)
Definition is_unsupported (c : ascii) : bool :=
  existsb (Ascii.eqb c) ["+"; "{"; "}"; "["; "]"; "|"; "^"]%char.

(** One pass over the pattern.  [esc]: the previous character was a
    backslash; [next]: number of the next group; [stack]: groups still
    open; [acc]: tokens read so far, last first. *)
Fixpoint parse (s : string) (esc : bool) (p : pending) (next : nat)
    (stack : list nat) (acc : list tok) : option (list tok) :=
  match s with
  | "" =>
      if esc then None
      else match stack with
           | [] => Some (rev (flush p acc))
           | _ :: _ => None
           end
  | String c s' =>
      if esc then
        if is_alnum c then None
        else parse s' false (Atom (Lit c)) next stack (flush p acc)
      else if Ascii.eqb c "\" then parse s' true NoAtom next stack (flush p acc)
      else if Ascii.eqb c "*" then
        match p with
        | Atom a => parse s' false Quantified next stack (Star a :: acc)
        | _ => None
        end
      else if Ascii.eqb c "?" then
        match p with
        | Atom a => parse s' false Quantified next stack (Opt a :: acc)
        | _ => None
        end
      else if is_unsupported c then None
      else if Ascii.eqb c "(" then
        parse s' false NoRepeat (S next) (next :: stack)
          (Open next :: flush p acc)
      else if Ascii.eqb c ")" then
        match stack with
        | i :: stack' =>
            parse s' false NoRepeat next stack' (Close i :: flush p acc)
        | [] => None
        end
      else if Ascii.eqb c "$" then
        parse s' false NoRepeat next stack (Eos :: flush p acc)
      else if Ascii.eqb c "." then
        parse s' false (Atom Dot) next stack (flush p acc)
      else parse s' false (Atom (Lit c)) next stack (flush p acc)
  end.

(** [re.compile(pattern)] for a pattern of the fragment; groups are
    numbered from 1. *)
Definition compile (pattern : string) : option (list tok) :=
  parse pattern false NoAtom 1 [] [].

(** [.] matches anything but a line feed. *)
Definition atom_ok (a : atom) (c : ascii) : bool :=
  match a with
  | Lit x => Ascii.eqb x c
  | Dot => negb (Ascii.eqb c LF)
  end.

(** Where the groups lie: starts of the groups opened so far, and the
    spans (start, end) of the groups closed so far. *)
Record marks := mk_marks {
  starts : list (nat * nat);
  spans : list (nat * (nat * nat))
}.

Definition assoc {A} (i : nat) (l : list (nat * A)) : option A :=
  snd <$> find (fun kv => Nat.eqb (fst kv) i) l.

(** The backtracking matcher: [exec p s pos m] matches the tokens [p]
    against [s], the part of the subject that starts at offset [pos].
    Greedy operators try the longer match first. *)
Fixpoint exec (p : list tok) : string → nat → marks → option marks :=
  match p with
  | [] => fun _ _ m => Some m
  | One a :: p' => fun s pos m =>
      match s with
      | String c s' => if atom_ok a c then exec p' s' (S pos) m else None
      | "" => None
      end
  | Opt a :: p' => fun s pos m =>
      match s with
      | String c s' =>
          if atom_ok a c then
            match exec p' s' (S pos) m with
            | Some r => Some r
            | None => exec p' s pos m
            end
          else exec p' s pos m
      | "" => exec p' s pos m
      end
  | Star a :: p' =>
      fix star (s : string) (pos : nat) (m : marks) : option marks :=
        match s with
        | String c s' =>
            if atom_ok a c then
              match star s' (S pos) m with
              | Some r => Some r
              | None => exec p' s pos m
              end
            else exec p' s pos m
        | "" => exec p' s pos m
        end
  | Eos :: p' => fun s pos m =>
      if bool_decide (s = "") || bool_decide (s = str1 LF)
      then exec p' s pos m else None
  | Open i :: p' => fun s pos m =>
      exec p' s pos (mk_marks ((i, pos) :: starts m) (spans m))
  | Close i :: p' => fun s pos m =>
      match assoc i (starts m) with
      | Some st => exec p' s pos (mk_marks (starts m) ((i, (st, pos)) :: spans m))
      | None => None
      end
  end.

(** A match object: the subject and the spans of its groups. *)
Record match_obj := mk_match {
  subject : string;
  groups : list (nat * (nat * nat))
}.

(** [prog.match(s)]: the pattern must match at the start of [s]; it need
    not reach its end. *)
Definition match_ (prog : list tok) (s : string) : option match_obj :=
  m ← exec prog s 0%nat (mk_marks [] []);
  Some (mk_match s (spans m)).

(** [m.group(i)] for a group that took part in the match. *)
Definition group (m : match_obj) (i : nat) : option string :=
  '(st, en) ← assoc i (groups m);
  Some (String.substring st (en - st) (subject m)).

End Re.

(** ** Python values

    The values that recipe attributes and Bintray records hold: [None],
    text, and lists and tuples of text (a JSON array decodes to a list, a
    recipe may declare a tuple). *)
Inductive pyval :=
  | PNone
  | PStr (s : string)
  | PList (l : list string)
  | PTuple (l : list string).

#[global] Instance pyval_eq_dec : EqDecision pyval.
Proof. solve_decision. Defined.

(** [bool(v)] *)
Definition truthy (v : pyval) : bool :=
  match v with
  | PNone => false
  | PStr s => negb (String.eqb s "")
  | PList l | PTuple l => match l with [] => false | _ :: _ => true end
  end.

(** [a != b]: a list never equals a tuple. *)
Definition py_ne (a b : pyval) : bool := bool_decide (a ≠ b).

(** [isinstance(v, str)] *)
Definition isinstance_str (v : pyval) : bool :=
  match v with PStr _ => true | _ => false end.

(** [type(v).__name__] *)
Definition type_name (v : pyval) : string :=
  match v with
  | PNone => "NoneType"
  | PStr _ => "str"
  | PList _ => "list"
  | PTuple _ => "tuple"
  end.

Fixpoint chars (s : string) : list string :=
  match s with
  | "" => []
  | String c s' => str1 c :: chars s'
  end.

(** [iter(v)]: the elements of a sequence, the characters of a text. *)
Definition py_iter (v : pyval) : result (list string) :=
  match v with
  | PNone => raise TypeError "'NoneType' object is not iterable"
  | PStr s => Ok (chars s)
  | PList l | PTuple l => Ok l
  end.

(** [set(v)] *)
Definition py_set (v : pyval) : result (gset string) :=
  l ← py_iter v; Ok (list_to_set l).

(** [s.intersection(v)] *)
Definition py_intersection (s : gset string) (v : pyval) : result (gset string) :=
  l ← py_iter v; Ok (s ∩ list_to_set l).

(** [bool(s)] for a set. *)
Definition set_truthy (s : gset string) : bool := bool_decide (s ≠ ∅).

(** The text of a value on which a [str] method [meth] is called. *)
Definition str_method (v : pyval) (meth : string) : result string :=
  match v with
  | PStr s => Ok s
  | _ =>
      raise AttributeError
        ("'" +:+ type_name v +:+ "' object has no attribute '" +:+ meth +:+ "'")
  end.

(** ** Dictionaries *)

(** A dictionary that is only read: the recipe attributes and the remote
    record.  [d[k]] raises [KeyError] on a missing key. *)
Definition getitem (d : gmap string pyval) (k : string) : result pyval :=
  match d !! k with
  | Some v => Ok v
  | None => raise KeyError ("'" +:+ k +:+ "'")
  end.

(** The update payload is built key by key and its keys are later listed in
    insertion order: an association list without repeated keys. *)
Definition dict := list (string * pyval).

(** [d[k] = v] *)
Fixpoint setitem (d : dict) (k : string) (v : pyval) : dict :=
  match d with
  | [] => [(k, v)]
  | (k', v') :: d' =>
      if String.eqb k' k then (k, v) :: d' else (k', v') :: setitem d' k v
  end.

(** [d.get(k)] *)
Fixpoint dict_get (d : dict) (k : string) : option pyval :=
  match d with
  | [] => None
  | (k', v) :: d' => if String.eqb k' k then Some v else dict_get d' k
  end.

(** [d.keys()] *)
Definition keys (d : dict) : list string := map fst d.

(** ** The world outside the module *)

Record response := mk_response {
  resp_ok : bool;
  resp_text : string;
  resp_status_code : Z;
  resp_json : result (gmap string pyval)
}.

Record World := mk_World {
  (** [os.environ] *)
  environ : gmap string string;
  (** [subprocess.check_output(git branch --no-color, shell=True).decode()] *)
  git_branch_cmd : result string;
  (** [requests.get(url=...)] *)
  requests_get : string → result response;
  (** [requests.patch(url=..., json=..., auth=HTTPBasicAuth(user, password))] *)
  requests_patch : string → dict → string → string → result response;
  (** [conan_api.Conan.factory()] followed by [inspect(path=..., attributes=None)] *)
  conan_inspect : string → result (gmap string pyval);
  (** [re.compile(pattern)] for a pattern outside the fragment of [Re]: an
      error, or the test [prog.match(s)] on subjects *)
  re_other : string → result (string → bool)
}.

(** [os.getenv(k)] is [environ w !! k]; a variable is truthy when it is set
    and not empty. *)
Definition env_truthy (v : option string) : bool :=
  match v with
  | Some s => negb (String.eqb s "")
  | None => false
  end.

(** The Conan remote and package reference, as far as the hook reads them. *)
Record Remote := mk_Remote { name : string; url : string }.
Record Reference := mk_Reference { ref_name : string; ref_user : string }.

(** ** The helper functions of the hook *)

(** [re.compile(pattern)] where the groups of the match are read: the
    pattern is one of the fragment. *)
Definition compile_groups (pattern : string) : result (list Re.tok) :=
  match Re.compile pattern with
  | Some prog => Ok prog
  | None => raise ReError ("pattern outside the fragment: " +:+ pattern)
  end.

(** [re.compile(pattern)] where only the test [prog.match(s)] is used: a
    pattern of the fragment is run by [Re.match_], any other pattern is the
    world's to compile and to match. *)
Definition compile_test (w : World) (pattern : string)
    : result (string → bool) :=
  match Re.compile pattern with
  | Some prog => Ok (fun s => bool_decide (is_Some (Re.match_ prog s)))
  | None => re_other w pattern
  end.

Definition bintray_pattern : string :=
  "https?:\/\/api.bintray.com\/conan\/(.*)\/(.*)".

(** [_extract_user_repo(remote)].  With no match, the argument of
    [ValueError] is evaluated first: a format string written with braces is
    applied with [%] to the remote's name. *)
Definition _extract_user_repo (remote : Remote) : result (string * string) :=
  prog ← compile_groups bintray_pattern;
  match Re.match_ prog (url remote) with
  | None =>
      msg ← py_percent "The remote {} is not a Bintray repository." (name remote);
      raise ValueError msg
  | Some m =>
      match Re.group m 1, Re.group m 2 with
      | Some user, Some repo => Ok (user, repo)
      | _, _ => raise IndexError "no such group"
      end
  end.

(** [_get_bintray_package_url(remote, reference)] *)
Definition _get_bintray_package_url (w : World) (remote : Remote)
    (reference : Reference) : result string :=
  '(user, repo) ← _extract_user_repo remote;
  package ← py_format "{}%3A{}" [ref_name reference; ref_user reference];
  let url := default "https://api.bintray.com" (environ w !! "BINTRAY_API_URL") in
  py_format "{}/packages/{}/{}/{}" [url; user; repo; package].

(** [_get_credentials(remote)] *)
Definition _get_credentials (w : World) (remote : Remote)
    : result (string * string) :=
  let remote_name := py_upper (name remote) in
  scoped ← py_percent "BINTRAY_LOGIN_USERNAME_%s" remote_name;
  let username :=
    find env_truthy
      ((environ w !!.) <$> [scoped; "BINTRAY_LOGIN_USERNAME"; "BINTRAY_USERNAME"]) in
  match username with
  | Some (Some username) =>
      scoped_pw ← py_percent "BINTRAY_PASSWORD_%s" remote_name;
      let password :=
        match environ w !! scoped_pw with
        | Some p => Some p
        | None => environ w !! "BINTRAY_PASSWORD"
        end in
      if env_truthy password then Ok (username, default "" password)
      else raise PlainException "Could not update Bintray info: password not found"
  | _ => raise ValueError "Could not update Bintray info: username not found"
  end.

Definition ci_manager : list (string * string) :=
  [ ("TRAVIS", "TRAVIS_BRANCH");
    ("APPVEYOR", "APPVEYOR_REPO_BRANCH");
    ("bamboo_buildNumber", "bamboo_planRepository_branch");
    ("JENKINS_URL", "BRANCH_NAME");
    ("GITLAB_CI", "CI_BUILD_REF_NAME");
    ("CIRCLECI", "CIRCLE_BRANCH") ].

(** The first loop of [_get_branch], over the CI systems in the order the
    dictionary lists them. *)
Fixpoint ci_branch (env : gmap string string) (l : list (string * string))
    : option string :=
  match l with
  | [] => None
  | (ci, branch) :: l' =>
      if env_truthy (env !! ci) && env_truthy (env !! branch) then env !! branch
      else ci_branch env l'
  end.

(** The second loop of [_get_branch], over the lines [git branch] printed. *)
Fixpoint git_current_branch (lines : list string) : option string :=
  match lines with
  | [] => None
  | line :: lines' =>
      let line := py_strip line in
      if py_startswith line "*" && negb (py_contains " (HEAD detached" line)
      then Some (py_strip (py_remove_first "*" line))
      else git_current_branch lines'
  end.

(** [_get_branch()]: [None] when no branch is known.  The [try] around the
    sub-process catches [Exception] only. *)
Definition _get_branch (w : World) : result (option string) :=
  match ci_branch (environ w) ci_manager with
  | Some branch => Ok (Some branch)
  | None =>
      match git_branch_cmd w with
      | Ok out => Ok (git_current_branch (py_splitlines out))
      | Raise e => if is_Exception (exn_cls e) then Ok None else Raise e
      end
  end.

Definition default_stable_patterns : list string :=
  ["master$"; "release*"; "stable*"].

(** The loop of [_is_stable_branch]: every pattern is compiled before the
    branch is looked at. *)
Fixpoint stable_loop (w : World) (branch : option string)
    (stable_patterns : list string) : result bool :=
  match stable_patterns with
  | [] => Ok false
  | pattern :: rest =>
      prog ← compile_test w pattern;
      if env_truthy branch && (prog : string → bool) (default "" branch)
      then Ok true
      else stable_loop w branch rest
  end.

(** [_is_stable_branch(branch)] *)
Definition _is_stable_branch (w : World) (branch : option string) : result bool :=
  let stable_branch_pattern := environ w !! "CONAN_STABLE_BRANCH_PATTERN" in
  let stable_patterns :=
    if env_truthy stable_branch_pattern
    then [default "" stable_branch_pattern]
    else default_stable_patterns in
  stable_loop w branch stable_patterns.

(** [_update_package_info(recipe_info, remote_info)]: the reconciler. *)
Definition _update_package_info (w : World)
    (recipe_info remote_info : gmap string pyval) : result dict :=
  let updated_info : dict := [] in
  description ← getitem recipe_info "description";
  updated_info ←
    (if truthy description then
       desc ← getitem remote_info "desc";
       if py_ne desc description
       then Ok (setitem updated_info "desc" description)
       else Ok updated_info
     else Ok updated_info);
  topics ← getitem recipe_info "topics";
  updated_info ←
    (if truthy topics then
       labels ← getitem remote_info "labels";
       if py_ne labels topics
       then Ok (setitem updated_info "labels" topics)
       else Ok updated_info
     else Ok updated_info);
  licenses ← getitem recipe_info "license";
  updated_info ←
    (if truthy licenses then
       let licenses :=
         match licenses with
         | PStr s => PList [s]
         | _ => licenses
         end in
       recipe_set ← py_set licenses;
       remote_licenses ← getitem remote_info "licenses";
       common ← py_intersection recipe_set remote_licenses;
       if negb (set_truthy common)
       then Ok (setitem updated_info "licenses" licenses)
       else Ok updated_info
     else Ok updated_info);
  url ← getitem recipe_info "url";
  let updated_info :=
    if truthy url then setitem updated_info "vcs_url" url else updated_info in
  issue_tracker_url ←
    (if truthy url then
       s ← str_method url "rfind";
       py_format "{}/community/issues" [py_slice_to s (py_rfind s "/")]
     else Ok "");
  let issue_tracker_url :=
    default issue_tracker_url (environ w !! "BINTRAY_ISSUE_TRACKER_URL") in
  updated_info ←
    (if negb (String.eqb issue_tracker_url "") then
       remote_tracker ← getitem remote_info "issue_tracker_url";
       if py_ne remote_tracker (PStr issue_tracker_url)
       then Ok (setitem updated_info "issue_tracker_url" (PStr issue_tracker_url))
       else Ok updated_info
     else Ok updated_info);
  branch ← _get_branch w;
  stable ← _is_stable_branch w branch;
  let updated_info :=
    if (stable : bool) then
      if match remote_info !! "maturity" with
         | None => true
         | Some maturity => py_ne maturity (PStr "Stable")
         end
      then setitem updated_info "maturity" (PStr "Stable")
      else updated_info
    else updated_info in
  homepage ← getitem recipe_info "homepage";
  updated_info ←
    (if truthy homepage then
       website_url ← getitem remote_info "website_url";
       if py_ne website_url homepage
       then Ok (setitem updated_info "website_url" homepage)
       else Ok updated_info
     else Ok updated_info);
  Ok updated_info.

(** ** Effects: what the host and the network observe *)

Inductive event :=
  | OutInfo (msg : string)
  | OutError (msg : string)
  | HttpGet (target : string)
  | HttpPatch (target : string) (body : dict) (username password : string)
  | Inspect (path : string).

(** A computation appends to the trace of events and returns or raises. *)
Definition M (A : Type) : Type := list event → result A * list event.

#[global] Instance M_ret : MRet M := fun A a tr => (Ok a, tr).
#[global] Instance M_bind : MBind M := fun A B f m tr =>
  match m tr with
  | (Ok a, tr') => f a tr'
  | (Raise e, tr') => (Raise e, tr')
  end.

Definition emit (e : event) : M unit := fun tr => (Ok tt, (tr ++ [e])%list).

Definition lift {A} (r : result A) : M A := fun tr => (r, tr).

(** [try: body except Exception as error: handler] *)
Definition try_except {A} (body : M A) (handler : exn → M A) : M A :=
  fun tr =>
    match body tr with
    | (Ok a, tr') => (Ok a, tr')
    | (Raise e, tr') =>
        if is_Exception (exn_cls e) then handler e tr' else (Raise e, tr')
    end.

(** [_get_package_info_from_bintray(package_url)] *)
Definition _get_package_info_from_bintray (w : World) (package_url : string)
    : M (gmap string pyval) :=
  emit (HttpGet package_url);;
  response ← lift (requests_get w package_url);
  if negb (resp_ok response) then
    msg ← lift (py_format "Could not request package info: {} ({})"
                  [resp_text response; pretty (resp_status_code response)]);
    lift (raise HTTPError msg)
  else lift (resp_json response).

(** [_get_package_info_from_recipe(conanfile_path)] *)
Definition _get_package_info_from_recipe (w : World) (conanfile_path : string)
    : M (gmap string pyval) :=
  emit (Inspect conanfile_path);;
  lift (conan_inspect w conanfile_path).

(** [_patch_bintray_package_info(package_url, package_info, remote)] *)
Definition _patch_bintray_package_info (w : World) (package_url : string)
    (package_info : dict) (remote : Remote) : M (gmap string pyval) :=
  if negb (py_contains "https" package_url) then
    lift (raise ValueError
            "Bad package URL: Only HTTPS is allowed, Bintray API uses Basic Auth")
  else
    '(username, password) ← lift (_get_credentials w remote);
    emit (HttpPatch package_url package_info username password);;
    response ← lift (requests_patch w package_url package_info username password);
    if negb (resp_ok response) then
      msg ← lift (py_format "Could not patch package info: {}" [resp_text response]);
      lift (raise HTTPError msg)
    else lift (resp_json response).

(** The body of the [try] statement of [post_upload_recipe]. *)
Definition upload_sequence (w : World) (conanfile_path : string)
    (reference : Reference) (remote : Remote) : M unit :=
  package_url ← lift (_get_bintray_package_url w remote reference);
  emit (OutInfo "Reading package info form Bintray...");;
  remote_info ← _get_package_info_from_bintray w package_url;
  emit (OutInfo "Inspecting recipe info ...");;
  recipe_info ← _get_package_info_from_recipe w conanfile_path;
  updated_info ← lift (_update_package_info w recipe_info remote_info);
  match updated_info with
  | _ :: _ =>
      msg ← lift (py_format "Bintray is outdated. Updating Bintray package info: {}"
                    [py_join " " (keys updated_info)]);
      emit (OutInfo msg);;
      _patch_bintray_package_info w package_url updated_info remote;;
      mret tt
  | [] => emit (OutInfo "Bintray package info is up-to-date.")
  end.

(** [post_upload_recipe(output, conanfile_path, reference, remote)]: the
    calls on [output] are the [OutInfo] and [OutError] events. *)
Definition post_upload_recipe (w : World) (conanfile_path : string)
    (reference : Reference) (remote : Remote) : M unit :=
  try_except
    (upload_sequence w conanfile_path reference remote)
    (fun error => emit (OutError (exn_str error))).

(** ** What the reconciler stages, key by key

    Each block of [_update_package_info] decides whether one key of the
    payload is written and with which value.  The decisions are stated here
    one by one; [update_package_info_staged] shows that the function is the
    sequence of these decisions. *)

Definition stage (d : dict) (k : string) (o : option pyval) : dict :=
  match o with
  | Some v => setitem d k v
  | None => d
  end.

(** The blocks for [desc], [labels] and [website_url]: recipe attribute
    [attr] against remote field [field]. *)
Definition staged_if_differs (recipe_info remote_info : gmap string pyval)
    (attr field : string) : result (option pyval) :=
  v ← getitem recipe_info attr;
  if truthy v then
    r ← getitem remote_info field;
    Ok (if py_ne r v then Some v else None)
  else Ok None.

(** A license attribute as the sequence that is compared and staged. *)
Definition as_sequence (licenses : pyval) : pyval :=
  match licenses with
  | PStr s => PList [s]
  | _ => licenses
  end.

Definition staged_licenses (recipe_info remote_info : gmap string pyval)
    : result (option pyval) :=
  licenses ← getitem recipe_info "license";
  if truthy licenses then
    recipe_set ← py_set (as_sequence licenses);
    remote_licenses ← getitem remote_info "licenses";
    common ← py_intersection recipe_set remote_licenses;
    Ok (if negb (set_truthy common) then Some (as_sequence licenses) else None)
  else Ok None.

Definition staged_vcs_url (recipe_info : gmap string pyval)
    : result (option pyval) :=
  url ← getitem recipe_info "url";
  Ok (if truthy url then Some url else None).

(** The issue-tracker address before it is compared with the remote one. *)
Definition issue_tracker (w : World) (recipe_info : gmap string pyval)
    : result string :=
  url ← getitem recipe_info "url";
  derived ←
    (if truthy url then
       s ← str_method url "rfind";
       py_format "{}/community/issues" [py_slice_to s (py_rfind s "/")]
     else Ok "");
  Ok (default derived (environ w !! "BINTRAY_ISSUE_TRACKER_URL")).

Definition staged_issue_tracker (w : World)
    (recipe_info remote_info : gmap string pyval) : result (option pyval) :=
  issue_tracker_url ← issue_tracker w recipe_info;
  if negb (String.eqb issue_tracker_url "") then
    r ← getitem remote_info "issue_tracker_url";
    Ok (if py_ne r (PStr issue_tracker_url)
        then Some (PStr issue_tracker_url) else None)
  else Ok None.

(** The classification of the current branch. *)
Definition current_branch_stable (w : World) : result bool :=
  branch ← _get_branch w;
  _is_stable_branch w branch.

Definition maturity_outdated (remote_info : gmap string pyval) : bool :=
  match remote_info !! "maturity" with
  | None => true
  | Some maturity => py_ne maturity (PStr "Stable")
  end.

Definition staged_maturity (w : World) (remote_info : gmap string pyval)
    : result (option pyval) :=
  stable ← current_branch_stable w;
  Ok (if (stable : bool) && maturity_outdated remote_info
      then Some (PStr "Stable") else None).

Definition staged_all (w : World) (recipe_info remote_info : gmap string pyval)
    : result dict :=
  desc ← staged_if_differs recipe_info remote_info "description" "desc";
  labels ← staged_if_differs recipe_info remote_info "topics" "labels";
  licenses ← staged_licenses recipe_info remote_info;
  vcs_url ← staged_vcs_url recipe_info;
  tracker ← staged_issue_tracker w recipe_info remote_info;
  maturity ← staged_maturity w remote_info;
  website ← staged_if_differs recipe_info remote_info "homepage" "website_url";
  Ok (stage (stage (stage (stage (stage (stage (stage []
        "desc" desc) "labels" labels) "licenses" licenses) "vcs_url" vcs_url)
        "issue_tracker_url" tracker) "maturity" maturity) "website_url" website).

(** The seven decisions behind a payload. *)
Record staging := mk_staging {
  st_desc : option pyval;
  st_labels : option pyval;
  st_licenses : option pyval;
  st_vcs_url : option pyval;
  st_issue_tracker_url : option pyval;
  st_maturity : option pyval;
  st_website_url : option pyval
}.

Definition payload (s : staging) : dict :=
  stage (stage (stage (stage (stage (stage (stage []
    "desc" (st_desc s)) "labels" (st_labels s)) "licenses" (st_licenses s))
    "vcs_url" (st_vcs_url s)) "issue_tracker_url" (st_issue_tracker_url s))
    "maturity" (st_maturity s)) "website_url" (st_website_url s).

(** The decisions that led to a staging [s], as one proposition. *)
Definition decided (w : World) (recipe_info remote_info : gmap string pyval)
    (s : staging) : Prop :=
  staged_if_differs recipe_info remote_info "description" "desc" = Ok (st_desc s)
  ∧ staged_if_differs recipe_info remote_info "topics" "labels" = Ok (st_labels s)
  ∧ staged_licenses recipe_info remote_info = Ok (st_licenses s)
  ∧ staged_vcs_url recipe_info = Ok (st_vcs_url s)
  ∧ staged_issue_tracker w recipe_info remote_info = Ok (st_issue_tracker_url s)
  ∧ staged_maturity w remote_info = Ok (st_maturity s)
  ∧ staged_if_differs recipe_info remote_info "homepage" "website_url"
    = Ok (st_website_url s).


(** ** Sample data *)

(** A world with the given environment and [git] output, and no network. *)
Definition offline_world (env : gmap string string) (git : result string)
    : World :=
  mk_World env git
    (fun _ => raise OtherException "connection refused")
    (fun _ _ _ _ => raise OtherException "connection refused")
    (fun _ => raise ConanException "cannot load the recipe")
    (fun _ => raise ReError "bad pattern").

(** The output of [git branch --no-color] in a checkout of [develop]. *)
Definition git_on_develop : result string :=
  Ok ("* develop" +:+ str1 LF +:+ "  master" +:+ str1 LF).

Definition travis_on_master : gmap string string :=
  <["TRAVIS" := "true"]> (<["TRAVIS_BRANCH" := "master"]> ∅).

Definition sample_remote_info : gmap string pyval :=
  <["desc" := PStr "old"]> (<["labels" := PList []]>
  (<["licenses" := PList ["MIT"]]> (<["vcs_url" := PNone]>
  (<["issue_tracker_url" := PNone]> (<["maturity" := PNone]>
  (<["website_url" := PNone]> ∅)))))).

Definition sample_recipe_info : gmap string pyval :=
  <["description" := PStr "new"]> (<["topics" := PList ["a"; "b"]]>
  (<["license" := PStr "MIT"]> (<["url" := PStr "https://x/y"]>
  (<["homepage" := PStr "https://x"]> ∅)))).

(** A recipe that declares nothing. *)
Definition empty_recipe_info : gmap string pyval :=
  <["description" := PNone]> (<["topics" := PNone]> (<["license" := PNone]>
  (<["url" := PNone]> (<["homepage" := PNone]> ∅)))).

(** The elements of a license attribute. *)
Definition license_items (licenses : pyval) : list string :=
  match licenses with
  | PNone => []
  | PStr s => [s]
  | PList l | PTuple l => l
  end.

(** ** The default stability patterns, read as sets of branch names *)

(** The tokens of a literal text. *)
Fixpoint lits (l : string) : list Re.tok :=
  match l with
  | "" => []
  | String c l' => Re.One (Re.Lit c) :: lits l'
  end.

(** The branch names the three default patterns accept: [master] as a whole
    name (a line feed may follow it), and every name that starts with
    [releas] or with [stabl]. *)
Definition default_stable (b : string) : bool :=
  bool_decide (b = "master" ∨ b = "master" +:+ str1 LF)
  || py_startswith b "releas"
  || py_startswith b "stabl".

(** The three prefixes the patterns are meant to stand for. *)
Definition starts_like_stable (b : string) : bool :=
  py_startswith b "master" || py_startswith b "release"
  || py_startswith b "stable".

(** ** The payload invariant of the specification *)

(** The value the recipe provides for a key of the payload: the attribute
    the key is filled from, licenses as a sequence, and for the issue
    tracker the address derived from a non-empty [url]. *)
Definition recipe_value (recipe_info : gmap string pyval) (k : string)
    : option pyval :=
  if String.eqb k "desc" then recipe_info !! "description"
  else if String.eqb k "labels" then recipe_info !! "topics"
  else if String.eqb k "licenses" then as_sequence <$> recipe_info !! "license"
  else if String.eqb k "vcs_url" then recipe_info !! "url"
  else if String.eqb k "issue_tracker_url" then
    match recipe_info !! "url" with
    | Some (PStr s) =>
        if truthy (PStr s)
        then Some (PStr (py_slice_to s (py_rfind s "/") +:+ "/community/issues"))
        else None
    | _ => None
    end
  else if String.eqb k "website_url" then recipe_info !! "homepage"
  else None.

(** A payload entry that the invariant allows without an exception: its
    value comes from the recipe, is not empty, and differs from what the
    remote record holds ([vcs_url] is not compared). *)
Definition from_recipe (recipe_info remote_info : gmap string pyval)
    (k : string) (v : pyval) : Prop :=
  recipe_value recipe_info k = Some v
  ∧ truthy v = true
  ∧ (k = "vcs_url" ∨ remote_info !! k ≠ Some v).

(** The stable-branch exception. *)
Definition from_stable_branch (stable : bool)
    (remote_info : gmap string pyval) (k : string) (v : pyval) : Prop :=
  k = "maturity" ∧ stable = true ∧ v = PStr "Stable"
  ∧ remote_info !! k ≠ Some v.

(** The invariant as the specification words it. *)
Definition payload_invariant (stable : bool)
    (recipe_info remote_info : gmap string pyval) (upd : dict) : Prop :=
  ∀ k v, dict_get upd k = Some v →
    from_recipe recipe_info remote_info k v
    ∨ from_stable_branch stable remote_info k v.

(** The entry the invariant leaves out: an issue tracker taken from the
    environment. *)
Definition from_tracker_override (w : World)
    (remote_info : gmap string pyval) (k : string) (v : pyval) : Prop :=
  k = "issue_tracker_url"
  ∧ ∃ s, environ w !! "BINTRAY_ISSUE_TRACKER_URL" = Some s
         ∧ s ≠ "" ∧ v = PStr s ∧ remote_info !! k ≠ Some v.

Definition tracker_override : gmap string string :=
  {["BINTRAY_ISSUE_TRACKER_URL" := "https://issues.example.org"]}.

(** ** What the reconciler needs from its inputs *)

(** An attribute that is present and not empty. *)
Definition declared (o : option pyval) : bool :=
  match o with
  | Some v => truthy v
  | None => false
  end.

(** A recipe as the inspection API returns it: the five attributes are
    there ([None] when the recipe does not declare one), and a url that is
    not empty is text. *)
Definition recipe_well_formed (recipe_info : gmap string pyval) : Prop :=
  is_Some (recipe_info !! "description")
  ∧ is_Some (recipe_info !! "topics")
  ∧ is_Some (recipe_info !! "license")
  ∧ is_Some (recipe_info !! "homepage")
  ∧ ∃ u, recipe_info !! "url" = Some u
         ∧ (truthy u = true → isinstance_str u = true).

(** The part of the remote record that the reconciler reads, given the
    recipe: a field is read when the value to compare it with is not
    empty, and [licenses] must then be iterable. *)
Definition remote_sufficient (w : World)
    (recipe_info remote_info : gmap string pyval) : Prop :=
  (declared (recipe_info !! "description") = true →
   is_Some (remote_info !! "desc"))
  ∧ (declared (recipe_info !! "topics") = true →
     is_Some (remote_info !! "labels"))
  ∧ (declared (recipe_info !! "license") = true →
     ∃ rv, remote_info !! "licenses" = Some rv ∧ rv ≠ PNone)
  ∧ (∀ t, issue_tracker w recipe_info = Ok t → t ≠ "" →
     is_Some (remote_info !! "issue_tracker_url"))
  ∧ (declared (recipe_info !! "homepage") = true →
     is_Some (remote_info !! "website_url")).

(** ** Failures and what the host sees *)

(** A result that, if it is an exception, is one [except Exception]
    catches. *)
Definition catchable {A} (r : result A) : Prop :=
  match r with
  | Ok _ => True
  | Raise e => is_Exception (exn_cls e) = true
  end.

(** The failures of the world are configuration, transport and delegation
    errors: whatever the sub-process, the transport, the decoding of a
    response or the inspection API raise derives from [Exception]. *)
Record failures_are_exceptions (w : World) : Prop := {
  git_catchable : catchable (git_branch_cmd w);
  get_catchable : ∀ target, catchable (requests_get w target);
  get_json_catchable :
    ∀ target r, requests_get w target = Ok r → catchable (resp_json r);
  patch_catchable :
    ∀ target body u p, catchable (requests_patch w target body u p);
  patch_json_catchable :
    ∀ target body u p r,
      requests_patch w target body u p = Ok r → catchable (resp_json r);
  inspect_catchable : ∀ path, catchable (conan_inspect w path);
  re_other_catchable : ∀ pattern, catchable (re_other w pattern)
}.

(** The lines written with [output.error]. *)
Definition error_lines (tr : list event) : list string :=
  omap (fun e => match e with OutError msg => Some msg | _ => None end) tr.

(** A computation is tame when it raises catchable exceptions only and
    writes no error line itself. *)
Definition tame {A} (m : M A) : Prop :=
  ∀ tr, catchable (m tr).1 ∧ error_lines (m tr).2 = error_lines tr.

Definition not_error (e : event) : Prop :=
  match e with OutError _ => False | _ => True end.

(** ** Sample remotes *)

Definition acme_remote : Remote :=
  mk_Remote "acme" "https://api.bintray.com/conan/acme/public-conan".

Definition httpserver_reference : Reference :=
  mk_Reference "libhttpserver" "acme".

(** The remote of Conan Center, which is not served from the API host. *)
Definition conan_center : Remote :=
  mk_Remote "conan-center" "https://conan.bintray.com".

Definition accepted : response := mk_response true "" 200 (Ok ∅).

(** A world whose API host is a plain-HTTP mirror, with credentials set. *)
Definition plain_http_world : World :=
  mk_World
    (<["BINTRAY_API_URL" := "http://localhost:8081"]>
       (<["BINTRAY_LOGIN_USERNAME" := "bob"]>
          (<["BINTRAY_PASSWORD" := "secret"]> ∅)))
    git_on_develop
    (fun _ => Ok (mk_response true "" 200 (Ok sample_remote_info)))
    (fun _ _ _ _ => Ok accepted)
    (fun _ => Ok sample_recipe_info)
    (fun _ => raise ReError "bad pattern").

Definition plain_http_package_url : string :=
  "http://localhost:8081/packages/acme/public-conan/libhttpserver%3Aacme".

Definition sample_payload : dict :=
  [("desc", PStr "new"); ("labels", PList ["a"; "b"]);
   ("vcs_url", PStr "https://x/y");
   ("issue_tracker_url", PStr "https://x/community/issues");
   ("website_url", PStr "https://x")].

(** ** Further notions about the payload *)

(** The keys of a payload in the order in which the reconciler writes them. *)
Definition payload_key_order : list string :=
  ["desc"; "labels"; "licenses"; "vcs_url"; "issue_tracker_url"; "maturity";
   "website_url"].

(** The remote record once the entries of a payload have been written to
    it, the other fields being kept. *)
Definition apply_update (upd : dict) (remote_info : gmap string pyval)
    : gmap string pyval :=
  list_to_map upd ∪ remote_info.

(** What a second run stages when the first payload has been applied: the
    url again, since it is never compared. *)
Definition restaged (recipe_info : gmap string pyval) : dict :=
  match recipe_info !! "url" with
  | Some u => if truthy u then [("vcs_url", u)] else []
  | None => []
  end.

(** ** Text without a given character *)

(** [c in s] for a character. *)
Fixpoint has_char (c : ascii) (s : string) : bool :=
  match s with
  | "" => false
  | String a s' => Ascii.eqb a c || has_char c s'
  end.

(** ** The listing that git prints *)

(** A branch name as git accepts it, as far as the parsing depends on it:
    not empty, with no white space and no asterisk. *)
Fixpoint plain_chars (s : string) : bool :=
  match s with
  | "" => true
  | String c s' => negb (is_space c) && negb (Ascii.eqb c "*") && plain_chars s'
  end.

Definition branch_name (s : string) : Prop :=
  s ≠ "" ∧ plain_chars s = true.

(** One line of [git branch --no-color]: the current branch is marked with
    an asterisk, the others are indented. *)
Definition listing_line (current : bool) (n : string) : string :=
  (if current then "* " else "  ") +:+ n +:+ str1 LF.

Fixpoint listing_lines (current : bool) (names : list string) : string :=
  match names with
  | [] => ""
  | n :: names' => listing_line current n +:+ listing_lines current names'
  end.

(** The listing of a repository on branch [current], with the branches
    [before] and [after] it. *)
Definition git_listing (before : list string) (current : string)
    (after : list string) : string :=
  listing_lines false before +:+ listing_line true current
  +:+ listing_lines false after.

(** ** Names of the environment variables of a remote *)


(** ** Addresses of Bintray *)

(** The address of a Conan repository on the API host. *)
Definition conan_address (secure : bool) (owner repo : string) : string :=
  (if secure then "https" else "http") +:+ "://api.bintray.com/conan/"
  +:+ owner +:+ String "/" repo.

(** The tokens after the host part of [bintray_pattern]: the two groups
    around a slash. *)
Definition owner_repo_tokens : list Re.tok :=
  [Re.Open 1; Re.Star Re.Dot; Re.Close 1; Re.One (Re.Lit "/");
   Re.Open 2; Re.Star Re.Dot; Re.Close 2].

(** The tokens of the host part of [bintray_pattern]; its two dots stand
    for any character. *)
Definition host_tokens : list Re.tok :=
  (lits "http" ++ [Re.Opt (Re.Lit "s")] ++ lits "://api" ++ [Re.One Re.Dot]
   ++ lits "bintray" ++ [Re.One Re.Dot] ++ lits "com/conan/")%list.

(** ** Requests on the network *)

Definition is_request (e : event) : bool :=
  match e with
  | HttpGet _ | HttpPatch _ _ _ _ => true
  | _ => false
  end.

(** The requests of a trace, in order. *)
Definition requests (tr : list event) : list event :=
  List.filter is_request tr.

(** The host of the API: [BINTRAY_API_URL], or Bintray's own. *)
Definition api_host (w : World) : string :=
  default "https://api.bintray.com" (environ w !! "BINTRAY_API_URL").
(** * Properties *)

(** ** The error monad *)

Lemma bind_Ok {A B} (a : A) (f : A → result B) : (Ok a ≫= f) = f a.
Proof. reflexivity. Qed.

Lemma bind_Ok_inv {A B} (m : result A) (f : A → result B) (b : B) :
  (m ≫= f) = Ok b → ∃ a, m = Ok a ∧ f a = Ok b.
Proof. destruct m as [a|e]; [eauto | discriminate]. Qed.

Lemma getitem_Ok d k v : getitem d k = Ok v ↔ d !! k = Some v.
Proof.
  unfold getitem. destruct (d !! k); split; intros H; inversion H; reflexivity.
Qed.

Lemma getitem_missing d k :
  d !! k = None → getitem d k = raise KeyError ("'" +:+ k +:+ "'").
Proof. unfold getitem. intros ->. reflexivity. Qed.

Lemma differs_block {B} (d : dict) (k : string) (v : pyval)
    (remote_info : gmap string pyval) (field : string) (rest : dict → result B) :
  ((if truthy v then
      r ← getitem remote_info field;
      if py_ne r v then Ok (setitem d k v) else Ok d
    else Ok d) ≫= rest)
  = ((if truthy v then
        r ← getitem remote_info field;
        Ok (if py_ne r v then Some v else None)
      else Ok None) ≫= λ o, rest (stage d k o)).
Proof.
  destruct (truthy v); [|reflexivity].
  destruct (getitem remote_info field) as [r|e]; [|reflexivity].
  cbn. destruct (py_ne r v); reflexivity.
Qed.

Lemma update_package_info_staged w recipe_info remote_info :
  _update_package_info w recipe_info remote_info
  = staged_all w recipe_info remote_info.
Proof.
  unfold _update_package_info, staged_all, staged_if_differs.
  destruct (getitem recipe_info "description") as [description|e]; [|reflexivity].
  rewrite !bind_Ok, differs_block.
  match goal with |- (?m ≫= _) = _ => destruct m as [desc|e]; [|reflexivity] end.
  rewrite !bind_Ok.
  destruct (getitem recipe_info "topics") as [topics|e]; [|reflexivity].
  rewrite !bind_Ok, differs_block.
  match goal with |- (?m ≫= _) = _ => destruct m as [labels|e]; [|reflexivity] end.
  rewrite !bind_Ok.
  unfold staged_licenses.
  destruct (getitem recipe_info "license") as [licenses|e]; [|reflexivity].
  rewrite !bind_Ok.
  fold (as_sequence licenses).
  assert (Hlic : ∀ B (rest : dict → result B) d,
    ((if truthy licenses then
        recipe_set ← py_set (as_sequence licenses);
        remote_licenses ← getitem remote_info "licenses";
        common ← py_intersection recipe_set remote_licenses;
        if negb (set_truthy common)
        then Ok (setitem d "licenses" (as_sequence licenses)) else Ok d
      else Ok d) ≫= rest)
    = ((if truthy licenses then
          recipe_set ← py_set (as_sequence licenses);
          remote_licenses ← getitem remote_info "licenses";
          common ← py_intersection recipe_set remote_licenses;
          Ok (if negb (set_truthy common)
              then Some (as_sequence licenses) else None)
        else Ok None) ≫= λ o, rest (stage d "licenses" o))).
  { intros B rest d. destruct (truthy licenses); [|reflexivity].
    destruct (py_set (as_sequence licenses)) as [s|e]; [|reflexivity].
    cbn. destruct (getitem remote_info "licenses") as [r|e]; [|reflexivity].
    cbn. destruct (py_intersection s r) as [c|e]; [|reflexivity].
    cbn. destruct (set_truthy c); reflexivity. }
  rewrite Hlic. clear Hlic.
  match goal with |- (?m ≫= _) = _ => destruct m as [lic|e]; [|reflexivity] end.
  rewrite !bind_Ok.
  unfold staged_vcs_url, staged_issue_tracker, issue_tracker.
  destruct (getitem recipe_info "url") as [url|e]; [|reflexivity].
  rewrite !bind_Ok.
  match goal with |- (?m ≫= _) = _ => destruct m as [derived|e]; [|reflexivity] end.
  rewrite !bind_Ok.
  set (tracker := default derived _).
  set (d3 := stage (stage (stage [] "desc" desc) "labels" labels) "licenses" lic).
  assert (Hv : (if truthy url then setitem d3 "vcs_url" url else d3)
               = stage d3 "vcs_url" (if truthy url then Some url else None)).
  { destruct (truthy url); reflexivity. }
  rewrite Hv. clear Hv.
  set (d4 := stage d3 "vcs_url" _).
  assert (Htr : ∀ B (rest : dict → result B),
    ((if negb (String.eqb tracker "") then
        r ← getitem remote_info "issue_tracker_url";
        if py_ne r (PStr tracker)
        then Ok (setitem d4 "issue_tracker_url" (PStr tracker)) else Ok d4
      else Ok d4) ≫= rest)
    = ((if negb (String.eqb tracker "") then
          r ← getitem remote_info "issue_tracker_url";
          Ok (if py_ne r (PStr tracker) then Some (PStr tracker) else None)
        else Ok None) ≫= λ o, rest (stage d4 "issue_tracker_url" o))).
  { intros B rest. destruct (negb (String.eqb tracker "")); [|reflexivity].
    destruct (getitem remote_info "issue_tracker_url") as [r|e]; [|reflexivity].
    cbn. destruct (py_ne r (PStr tracker)); reflexivity. }
  rewrite Htr. clear Htr.
  match goal with |- (?m ≫= _) = _ => destruct m as [tr|e]; [|reflexivity] end.
  rewrite !bind_Ok.
  unfold staged_maturity, current_branch_stable.
  destruct (_get_branch w) as [branch|e]; [|reflexivity].
  rewrite !bind_Ok.
  destruct (_is_stable_branch w branch) as [stable|e]; [|reflexivity].
  rewrite !bind_Ok.
  fold (maturity_outdated remote_info).
  destruct (getitem recipe_info "homepage") as [homepage|e]; [|reflexivity].
  rewrite !bind_Ok.
  assert (Hm : (if stable then
                  if maturity_outdated remote_info
                  then setitem (stage d4 "issue_tracker_url" tr) "maturity" (PStr "Stable")
                  else stage d4 "issue_tracker_url" tr
                else stage d4 "issue_tracker_url" tr)
               = stage (stage d4 "issue_tracker_url" tr) "maturity"
                   (if stable && maturity_outdated remote_info
                    then Some (PStr "Stable") else None)).
  { destruct stable, (maturity_outdated remote_info); reflexivity. }
  rewrite Hm, differs_block.
  match goal with |- (?m ≫= _) = _ => destruct m as [web|e]; reflexivity end.
Qed.

(** ** Reading the payload *)

Lemma dict_get_setitem d k v k' :
  dict_get (setitem d k v) k'
  = if String.eqb k k' then Some v else dict_get d k'.
Proof.
  induction d as [|[k0 v0] d IH]; [reflexivity|].
  cbn. destruct (String.eqb_spec k0 k) as [->|Hne]; cbn.
  - destruct (String.eqb k k'); reflexivity.
  - rewrite IH. destruct (String.eqb_spec k0 k') as [->|Hne']; [|reflexivity].
    destruct (String.eqb_spec k k') as [->|_]; [congruence | reflexivity].
Qed.

Lemma dict_get_stage d k o k' :
  dict_get (stage d k o) k'
  = if String.eqb k k'
    then match o with Some v => Some v | None => dict_get d k' end
    else dict_get d k'.
Proof.
  destruct o as [v|]; cbn.
  - apply dict_get_setitem.
  - destruct (String.eqb k k'); reflexivity.
Qed.

Lemma update_package_info_Ok w recipe_info remote_info upd :
  _update_package_info w recipe_info remote_info = Ok upd
  ↔ ∃ s, decided w recipe_info remote_info s ∧ upd = payload s.
Proof.
  rewrite update_package_info_staged. unfold staged_all, decided. split.
  - intros H.
    apply bind_Ok_inv in H as (o1 & H1 & H).
    apply bind_Ok_inv in H as (o2 & H2 & H).
    apply bind_Ok_inv in H as (o3 & H3 & H).
    apply bind_Ok_inv in H as (o4 & H4 & H).
    apply bind_Ok_inv in H as (o5 & H5 & H).
    apply bind_Ok_inv in H as (o6 & H6 & H).
    apply bind_Ok_inv in H as (o7 & H7 & H).
    exists (mk_staging o1 o2 o3 o4 o5 o6 o7). cbn.
    inversion H. auto 10.
  - intros ([o1 o2 o3 o4 o5 o6 o7] & (H1 & H2 & H3 & H4 & H5 & H6 & H7) & ->).
    cbn in *. rewrite H1, H2, H3, H4, H5, H6, H7. reflexivity.
Qed.

Lemma payload_lookup s :
  dict_get (payload s) "desc" = st_desc s
  ∧ dict_get (payload s) "labels" = st_labels s
  ∧ dict_get (payload s) "licenses" = st_licenses s
  ∧ dict_get (payload s) "vcs_url" = st_vcs_url s
  ∧ dict_get (payload s) "issue_tracker_url" = st_issue_tracker_url s
  ∧ dict_get (payload s) "maturity" = st_maturity s
  ∧ dict_get (payload s) "website_url" = st_website_url s.
Proof.
  destruct s as [[] [] [] [] [] [] []]; repeat split; reflexivity.
Qed.

(** A payload has no other keys. *)
Lemma payload_keys s k v :
  dict_get (payload s) k = Some v →
  (k = "desc" ∧ st_desc s = Some v)
  ∨ (k = "labels" ∧ st_labels s = Some v)
  ∨ (k = "licenses" ∧ st_licenses s = Some v)
  ∨ (k = "vcs_url" ∧ st_vcs_url s = Some v)
  ∨ (k = "issue_tracker_url" ∧ st_issue_tracker_url s = Some v)
  ∨ (k = "maturity" ∧ st_maturity s = Some v)
  ∨ (k = "website_url" ∧ st_website_url s = Some v).
Proof.
  intros H.
  destruct (decide (k = "desc")) as [->|N1];
    [left; split; [reflexivity|]; rewrite <- H; symmetry; apply payload_lookup|].
  destruct (decide (k = "labels")) as [->|N2];
    [right; left; split; [reflexivity|]; rewrite <- H; symmetry; apply payload_lookup|].
  destruct (decide (k = "licenses")) as [->|N3];
    [do 2 right; left; split; [reflexivity|]; rewrite <- H; symmetry;
     apply payload_lookup|].
  destruct (decide (k = "vcs_url")) as [->|N4];
    [do 3 right; left; split; [reflexivity|]; rewrite <- H; symmetry;
     apply payload_lookup|].
  destruct (decide (k = "issue_tracker_url")) as [->|N5];
    [do 4 right; left; split; [reflexivity|]; rewrite <- H; symmetry;
     apply payload_lookup|].
  destruct (decide (k = "maturity")) as [->|N6];
    [do 5 right; left; split; [reflexivity|]; rewrite <- H; symmetry;
     apply payload_lookup|].
  destruct (decide (k = "website_url")) as [->|N7];
    [do 6 right; split; [reflexivity|]; rewrite <- H; symmetry;
     apply payload_lookup|].
  exfalso. revert H. unfold payload. rewrite !dict_get_stage.
  repeat match goal with
  | |- context [String.eqb ?a k] =>
      destruct (String.eqb_spec a k) as [E|_]; [congruence|]
  end.
  discriminate.
Qed.

(** ** Licenses *)

Lemma py_set_as_sequence lic :
  truthy lic = true →
  py_set (as_sequence lic) = Ok (list_to_set (license_items lic)).
Proof. destruct lic; cbn; intros H; try discriminate; reflexivity. Qed.

Lemma set_truthy_inter (l1 l2 : list string) :
  set_truthy (list_to_set l1 ∩ list_to_set l2) = true
  ↔ ∃ x, x ∈ l1 ∧ x ∈ l2.
Proof.
  unfold set_truthy. rewrite bool_decide_eq_true. split.
  - intros H. apply set_choose_L in H as [x Hx].
    exists x. set_solver.
  - intros (x & H1 & H2). apply (non_empty_inhabited_L x). set_solver.
Qed.

Lemma staged_licenses_Ok recipe_info remote_info lic o :
  staged_licenses recipe_info remote_info = Ok o →
  recipe_info !! "license" = Some lic → truthy lic = true →
  ∃ rv rl, remote_info !! "licenses" = Some rv ∧ py_iter rv = Ok rl
    ∧ o = if set_truthy (list_to_set (license_items lic) ∩ list_to_set rl)
          then None else Some (as_sequence lic).
Proof.
  unfold staged_licenses. intros H Hlic Ht.
  apply getitem_Ok in Hlic. rewrite Hlic, bind_Ok, Ht in H.
  rewrite (py_set_as_sequence _ Ht), bind_Ok in H.
  apply bind_Ok_inv in H as (rv & Hrv & H). apply getitem_Ok in Hrv.
  unfold py_intersection in H.
  apply bind_Ok_inv in H as (c & Hc & H).
  apply bind_Ok_inv in Hc as (rl & Hrl & Hc).
  exists rv, rl. split; [assumption|]. split; [assumption|].
  inversion Hc; subst c. inversion H.
  destruct (set_truthy _); reflexivity.
Qed.



(** ** Maturity *)

Lemma maturity_outdated_spec remote_info :
  maturity_outdated remote_info = true
  ↔ remote_info !! "maturity" ≠ Some (PStr "Stable").
Proof.
  unfold maturity_outdated, py_ne.
  destruct (remote_info !! "maturity") as [m|].
  - rewrite bool_decide_eq_true. split; congruence.
  - split; [discriminate | reflexivity].
Qed.

Lemma update_classifies_branch w recipe_info remote_info upd :
  _update_package_info w recipe_info remote_info = Ok upd →
  ∃ stable, current_branch_stable w = Ok stable.
Proof.
  intros H.
  apply update_package_info_Ok in H as (s & Hs & ->).
  destruct Hs as (_ & _ & _ & _ & _ & H6 & _).
  unfold staged_maturity in H6.
  apply bind_Ok_inv in H6 as (stable & Hst & _). eauto.
Qed.

Lemma vcs_url_lookup w recipe_info remote_info upd u :
  _update_package_info w recipe_info remote_info = Ok upd →
  recipe_info !! "url" = Some u →
  truthy u = true →
  dict_get upd "vcs_url" = Some u.
Proof.
  intros H Hu Ht.
  apply update_package_info_Ok in H as (s & Hs & ->).
  destruct Hs as (_ & _ & _ & H4 & _).
  destruct (payload_lookup s) as (_ & _ & _ & -> & _).
  unfold staged_vcs_url in H4. apply getitem_Ok in Hu.
  rewrite Hu, bind_Ok, Ht in H4. inversion H4. reflexivity.
Qed.

(** C3. Whenever the reconciler returns a payload, the current branch has
    been classified, and [maturity] is staged, with the value Stable,
    exactly when the branch is stable and the remote record has no
    [maturity] or one that is not Stable.  With a stable branch and a remote
    [maturity] that is already Stable nothing is staged for the field, and
    no other value is ever staged for it. *)
Theorem maturity_staged_iff w recipe_info remote_info upd :
  _update_package_info w recipe_info remote_info = Ok upd →
  ∃ stable, current_branch_stable w = Ok stable
    ∧ (dict_get upd "maturity" = Some (PStr "Stable")
       ↔ stable = true ∧ remote_info !! "maturity" ≠ Some (PStr "Stable"))
    ∧ (stable = true → remote_info !! "maturity" = Some (PStr "Stable") →
       dict_get upd "maturity" = None)
    ∧ (∀ v, dict_get upd "maturity" = Some v → v = PStr "Stable").
Proof.
  intros H.
  apply update_package_info_Ok in H as (s & Hs & ->).
  destruct Hs as (_ & _ & _ & _ & _ & H6 & _).
  destruct (payload_lookup s) as (_ & _ & _ & _ & _ & -> & _).
  unfold staged_maturity in H6.
  apply bind_Ok_inv in H6 as (stable & Hst & H6).
  exists stable. split; [assumption|].
  inversion H6 as [Hm]. clear H6.
  pose proof (maturity_outdated_spec remote_info) as Hout.
  destruct stable, (maturity_outdated remote_info); cbn.
  - split; [|split].
    + split; [intros _; split; [reflexivity | apply Hout; reflexivity] | reflexivity].
    + intros _ Heq. destruct Hout as [Hout _]. destruct (Hout eq_refl Heq).
    + intros v [= <-]. reflexivity.
  - split; [|split].
    + split; [discriminate|]. intros [_ Hne]. apply Hout in Hne. discriminate.
    + reflexivity.
    + discriminate.
  - split; [|split].
    + split; [discriminate|]. intros [? _]. discriminate.
    + reflexivity.
    + discriminate.
  - split; [|split].
    + split; [discriminate|]. intros [? _]. discriminate.
    + reflexivity.
    + discriminate.
Qed.

Lemma maturity_staged_iff_witness :
  ∃ stable,
    current_branch_stable (offline_world travis_on_master git_on_develop)
    = Ok stable
    ∧ (dict_get
         [("desc", PStr "new"); ("labels", PList ["a"; "b"]);
          ("vcs_url", PStr "https://x/y");
          ("issue_tracker_url", PStr "https://x/community/issues");
          ("maturity", PStr "Stable"); ("website_url", PStr "https://x")]
         "maturity" = Some (PStr "Stable")
       ↔ stable = true
         ∧ sample_remote_info !! "maturity" ≠ Some (PStr "Stable"))
    ∧ (stable = true →
       sample_remote_info !! "maturity" = Some (PStr "Stable") →
       dict_get
         [("desc", PStr "new"); ("labels", PList ["a"; "b"]);
          ("vcs_url", PStr "https://x/y");
          ("issue_tracker_url", PStr "https://x/community/issues");
          ("maturity", PStr "Stable"); ("website_url", PStr "https://x")]
         "maturity" = None)
    ∧ (∀ v,
         dict_get
           [("desc", PStr "new"); ("labels", PList ["a"; "b"]);
            ("vcs_url", PStr "https://x/y");
            ("issue_tracker_url", PStr "https://x/community/issues");
            ("maturity", PStr "Stable"); ("website_url", PStr "https://x")]
           "maturity" = Some v → v = PStr "Stable").
Proof.
  apply (maturity_staged_iff (offline_world travis_on_master git_on_develop)
           sample_recipe_info sample_remote_info).
  vm_compute. reflexivity.
Defined.

(** ** The repository address *)

(** C4. For a recipe whose [url] is not empty, every payload the reconciler
    returns carries that url under [vcs_url], whatever the remote record
    holds there, the same value included. *)
Theorem vcs_url_always_staged w recipe_info remote_info upd u :
  _update_package_info w recipe_info remote_info = Ok upd →
  recipe_info !! "url" = Some u →
  truthy u = true →
  dict_get upd "vcs_url" = Some u.
Proof.
  apply vcs_url_lookup.
Qed.

Lemma vcs_url_always_staged_witness :
  dict_get
    [("desc", PStr "new"); ("labels", PList ["a"; "b"]);
     ("vcs_url", PStr "https://x/y");
     ("issue_tracker_url", PStr "https://x/community/issues");
     ("website_url", PStr "https://x")] "vcs_url"
  = Some (PStr "https://x/y").
Proof.
  apply (vcs_url_always_staged (offline_world ∅ git_on_develop)
           sample_recipe_info
           (<["vcs_url" := PStr "https://x/y"]> sample_remote_info)).
  - vm_compute. reflexivity.
  - vm_compute. reflexivity.
  - reflexivity.
Defined.

(** ** An end-to-end run *)

(** C5. With the sample remote record (desc old, no labels, licenses MIT,
    the other fields null) and the sample recipe (description new, topics a
    and b, license MIT, url https://x/y, homepage https://x), on a branch
    that is not stable and with no override of the issue tracker, the
    reconciler returns exactly: desc, labels, vcs_url, issue_tracker_url
    (https://x/community/issues) and website_url.  [licenses] is left out. *)
Theorem sample_reconciliation w :
  environ w !! "BINTRAY_ISSUE_TRACKER_URL" = None →
  current_branch_stable w = Ok false →
  _update_package_info w sample_recipe_info sample_remote_info
  = Ok [("desc", PStr "new"); ("labels", PList ["a"; "b"]);
        ("vcs_url", PStr "https://x/y");
        ("issue_tracker_url", PStr "https://x/community/issues");
        ("website_url", PStr "https://x")].
Proof.
  intros Henv Hbranch.
  rewrite update_package_info_staged. unfold staged_all.
  assert (staged_if_differs sample_recipe_info sample_remote_info
            "description" "desc" = Ok (Some (PStr "new"))) as ->
    by (vm_compute; reflexivity).
  assert (staged_if_differs sample_recipe_info sample_remote_info
            "topics" "labels" = Ok (Some (PList ["a"; "b"]))) as ->
    by (vm_compute; reflexivity).
  assert (staged_licenses sample_recipe_info sample_remote_info = Ok None) as ->
    by (vm_compute; reflexivity).
  assert (staged_vcs_url sample_recipe_info = Ok (Some (PStr "https://x/y")))
    as -> by (vm_compute; reflexivity).
  assert (staged_if_differs sample_recipe_info sample_remote_info
            "homepage" "website_url" = Ok (Some (PStr "https://x"))) as ->
    by (vm_compute; reflexivity).
  assert (staged_issue_tracker w sample_recipe_info sample_remote_info
          = Ok (Some (PStr "https://x/community/issues"))) as ->.
  { unfold staged_issue_tracker, issue_tracker.
    assert (getitem sample_recipe_info "url" = Ok (PStr "https://x/y")) as ->
      by (vm_compute; reflexivity).
    rewrite Henv. vm_compute. reflexivity. }
  unfold staged_maturity. rewrite Hbranch. reflexivity.
Qed.

Lemma sample_reconciliation_witness :
  _update_package_info (offline_world ∅ git_on_develop)
    sample_recipe_info sample_remote_info
  = Ok [("desc", PStr "new"); ("labels", PList ["a"; "b"]);
        ("vcs_url", PStr "https://x/y");
        ("issue_tracker_url", PStr "https://x/community/issues");
        ("website_url", PStr "https://x")].
Proof.
  apply (sample_reconciliation (offline_world ∅ git_on_develop)).
  - reflexivity.
  - vm_compute. reflexivity.
Defined.

(** ** The regular-expression matcher on the default patterns *)

Lemma exec_star_unfold a p s pos m :
  Re.exec (Re.Star a :: p) s pos m
  = match s with
    | String c s' =>
        if Re.atom_ok a c then
          match Re.exec (Re.Star a :: p) s' (S pos) m with
          | Some r => Some r
          | None => Re.exec p s pos m
          end
        else Re.exec p s pos m
    | "" => Re.exec p s pos m
    end.
Proof. destruct s; reflexivity. Qed.

Lemma exec_star_last a s pos m : is_Some (Re.exec [Re.Star a] s pos m).
Proof.
  revert pos. induction s as [|c s IH]; intros pos.
  - cbn. eauto.
  - rewrite exec_star_unfold.
    destruct (Re.atom_ok a c); [|cbn; eauto].
    destruct (IH (S pos)) as [r ->]. eauto.
Qed.

Lemma exec_lits l p t pos m :
  Re.exec (lits l ++ p) (l +:+ t) pos m
  = Re.exec p t (pos + String.length l)%nat m.
Proof.
  revert pos. induction l as [|c l IH]; intros pos.
  - cbn. f_equal. lia.
  - change (String c l +:+ t) with (String c (l +:+ t)). cbn.
    rewrite Ascii.eqb_refl, IH. f_equal. lia.
Qed.

Lemma exec_lits_None l p s pos m :
  String.prefix l s = false → Re.exec (lits l ++ p) s pos m = None.
Proof.
  revert s pos. induction l as [|c l IH]; intros s pos.
  - destruct s; discriminate.
  - destruct s as [|d s]; [reflexivity|]. cbn.
    destruct (ascii_dec c d) as [->|Hne].
    + rewrite Ascii.eqb_refl. apply IH.
    + intros _. apply Ascii.eqb_neq in Hne. rewrite Hne. reflexivity.
Qed.

Lemma prefix_split l s : String.prefix l s = true → ∃ t, s = l +:+ t.
Proof.
  revert s. induction l as [|c l IH]; intros s.
  - eauto.
  - destruct s as [|d s]; [discriminate|]. cbn.
    destruct (ascii_dec c d) as [->|Hne]; [|discriminate].
    intros H. destruct (IH _ H) as [t ->]. eauto.
Qed.

Lemma prefix_app l t : String.prefix l (l +:+ t) = true.
Proof.
  induction l as [|c l IH]; [destruct t; reflexivity|].
  change (String c l +:+ t) with (String c (l +:+ t)). cbn.
  destruct (ascii_dec c c); [assumption | congruence].
Qed.

Lemma prefix_refl l : String.prefix l l = true.
Proof.
  induction l as [|c l IH]; cbn; [reflexivity|].
  destruct (ascii_dec c c); [assumption | congruence].
Qed.

Lemma match_is_Some prog s :
  is_Some (Re.match_ prog s)
  ↔ is_Some (Re.exec prog s 0%nat (Re.mk_marks [] [])).
Proof.
  unfold Re.match_. destruct (Re.exec _ _ _ _); cbn; split; intros [x H];
    try discriminate; eauto.
Qed.

(** A literal prefix followed by a starred character accepts exactly the
    names that start with the prefix. *)
Lemma match_prefix_star l a s :
  bool_decide (is_Some (Re.match_ (lits l ++ [Re.Star a]) s))
  = String.prefix l s.
Proof.
  destruct (String.prefix l s) eqn:E.
  - apply bool_decide_eq_true, match_is_Some.
    destruct (prefix_split _ _ E) as [t ->].
    rewrite exec_lits. apply exec_star_last.
  - apply bool_decide_eq_false. rewrite match_is_Some.
    rewrite (exec_lits_None _ _ _ _ _ E). intros [x H]. discriminate.
Qed.

Lemma app_cons c l t : String c l +:+ t = String c (l +:+ t).
Proof. reflexivity. Qed.

(** A literal followed by the end anchor accepts the literal, with or
    without one line feed after it. *)
Lemma match_literal_eos l s :
  bool_decide (is_Some (Re.match_ (lits l ++ [Re.Eos]) s))
  = bool_decide (s = l ∨ s = l +:+ str1 LF).
Proof.
  destruct (String.prefix l s) eqn:E.
  - destruct (prefix_split _ _ E) as [t ->].
    apply bool_decide_ext. rewrite match_is_Some, exec_lits.
    cbn [Re.exec].
    destruct (decide (t = "")) as [->|N1].
    { split; [intros _; left|intros _; cbn; eauto].
      clear. induction l as [|c l IH]; [reflexivity|].
      rewrite app_cons. congruence. }
    destruct (decide (t = str1 LF)) as [->|N2].
    { split; [intros _; right; reflexivity|intros _; cbn; eauto]. }
    rewrite !bool_decide_eq_false_2 by assumption. cbn. split.
    + intros [x H]. discriminate.
    + intros [H|H]; exfalso.
      * apply N1. clear -H. induction l as [|c l IH]; [assumption|].
        rewrite app_cons in H. injection H as H. auto.
      * apply N2. apply String.app_inj in H. assumption.
  - rewrite !bool_decide_eq_false_2; [reflexivity| |].
    + intros [->| ->].
      * rewrite prefix_refl in E. discriminate.
      * rewrite prefix_app in E. discriminate.
    + rewrite match_is_Some, (exec_lits_None _ _ _ _ _ E).
      intros [x H]. discriminate.
Qed.

(** ** The stability classifier *)

Lemma compile_master w :
  compile_test w "master$"
  = Ok (fun s => bool_decide
                   (is_Some (Re.match_ (lits "master" ++ [Re.Eos]) s))).
Proof. reflexivity. Qed.

Lemma compile_release w :
  compile_test w "release*"
  = Ok (fun s => bool_decide
                   (is_Some (Re.match_
                               (lits "releas" ++ [Re.Star (Re.Lit "e")]) s))).
Proof. reflexivity. Qed.

Lemma compile_stable w :
  compile_test w "stable*"
  = Ok (fun s => bool_decide
                   (is_Some (Re.match_
                               (lits "stabl" ++ [Re.Star (Re.Lit "e")]) s))).
Proof. reflexivity. Qed.

Lemma default_patterns_on_branch w b :
  stable_loop w (Some b) default_stable_patterns = Ok (default_stable b).
Proof.
  unfold default_stable_patterns, default_stable, py_startswith.
  cbn [stable_loop].
  rewrite compile_master, compile_release, compile_stable, !bind_Ok.
  cbn [default].
  rewrite match_literal_eos, !match_prefix_star.
  destruct b as [|c b].
  - reflexivity.
  - cbn [env_truthy String.eqb negb andb].
    destruct (bool_decide _); [reflexivity|].
    destruct (String.prefix "releas" _); [reflexivity|].
    destruct (String.prefix "stabl" _); reflexivity.
Qed.

Lemma default_patterns_no_branch w :
  stable_loop w None default_stable_patterns = Ok false.
Proof. reflexivity. Qed.

(** C6, as the code has it.  With no override pattern (the variable unset
    or empty) the classifier accepts exactly: the name master, alone or
    followed by one line feed, and every name that starts with releas or
    with stabl.  So master, release-2.0, stable and releaseX-foo are
    stable; develop, an absent branch and master-next are not. *)
Theorem default_classification w :
  env_truthy (environ w !! "CONAN_STABLE_BRANCH_PATTERN") = false →
  (∀ b, _is_stable_branch w (Some b) = Ok (default_stable b))
  ∧ _is_stable_branch w None = Ok false
  ∧ _is_stable_branch w (Some "master") = Ok true
  ∧ _is_stable_branch w (Some "release-2.0") = Ok true
  ∧ _is_stable_branch w (Some "stable") = Ok true
  ∧ _is_stable_branch w (Some "releaseX-foo") = Ok true
  ∧ _is_stable_branch w (Some "develop") = Ok false
  ∧ _is_stable_branch w (Some "master-next") = Ok false.
Proof.
  intros H.
  assert (Hb : ∀ b, _is_stable_branch w (Some b) = Ok (default_stable b)).
  { intros b. unfold _is_stable_branch. rewrite H.
    apply default_patterns_on_branch. }
  split; [exact Hb|].
  split; [unfold _is_stable_branch; rewrite H; reflexivity|].
  rewrite !Hb. repeat split; vm_compute; reflexivity.
Qed.

Lemma default_classification_witness :
  (∀ b, _is_stable_branch (offline_world ∅ git_on_develop) (Some b)
        = Ok (default_stable b))
  ∧ _is_stable_branch (offline_world ∅ git_on_develop) None = Ok false
  ∧ _is_stable_branch (offline_world ∅ git_on_develop) (Some "master") = Ok true
  ∧ _is_stable_branch (offline_world ∅ git_on_develop) (Some "release-2.0")
    = Ok true
  ∧ _is_stable_branch (offline_world ∅ git_on_develop) (Some "stable") = Ok true
  ∧ _is_stable_branch (offline_world ∅ git_on_develop) (Some "releaseX-foo")
    = Ok true
  ∧ _is_stable_branch (offline_world ∅ git_on_develop) (Some "develop")
    = Ok false
  ∧ _is_stable_branch (offline_world ∅ git_on_develop) (Some "master-next")
    = Ok false.
Proof.
  apply (default_classification (offline_world ∅ git_on_develop)).
  reflexivity.
Defined.

(** The claim as it is worded fails: a name that starts with master and
    goes on is not classified stable. *)
Lemma master_prefix_not_stable :
  starts_like_stable "master-next" = true
  ∧ _is_stable_branch (offline_world ∅ git_on_develop) (Some "master-next")
    = Ok false.
Proof. split; vm_compute; reflexivity. Qed.

(** ** The payload invariant *)

Lemma staged_if_differs_Some recipe_info remote_info attr field v :
  staged_if_differs recipe_info remote_info attr field = Ok (Some v) →
  recipe_info !! attr = Some v ∧ truthy v = true
  ∧ remote_info !! field ≠ Some v.
Proof.
  unfold staged_if_differs. intros H.
  apply bind_Ok_inv in H as (x & Hx & H). apply getitem_Ok in Hx.
  destruct (truthy x) eqn:Ht; [|discriminate].
  apply bind_Ok_inv in H as (r & Hr & H). apply getitem_Ok in Hr.
  unfold py_ne in H. case_bool_decide; [|discriminate].
  inversion H; subst x. rewrite Hr. repeat split; congruence.
Qed.

Lemma truthy_as_sequence lic :
  truthy lic = true → truthy (as_sequence lic) = true.
Proof. destruct lic; cbn; intros H; try discriminate; auto. Qed.

Lemma py_iter_as_sequence lic :
  truthy lic = true → py_iter (as_sequence lic) = Ok (license_items lic).
Proof. destruct lic; cbn; intros H; try discriminate; reflexivity. Qed.

Lemma license_items_nonempty lic :
  truthy lic = true → ∃ x, x ∈ license_items lic.
Proof.
  destruct lic as [|s|[|x l]|[|x l]]; cbn; intros H; try discriminate;
    eexists; apply list_elem_of_here.
Qed.

Lemma staged_licenses_Some recipe_info remote_info v :
  staged_licenses recipe_info remote_info = Ok (Some v) →
  recipe_value recipe_info "licenses" = Some v ∧ truthy v = true
  ∧ remote_info !! "licenses" ≠ Some v.
Proof.
  intros H.
  destruct (recipe_info !! "license") as [lic|] eqn:Hlic.
  2:{ unfold staged_licenses in H. rewrite (getitem_missing _ _ Hlic) in H.
      discriminate. }
  destruct (truthy lic) eqn:Ht.
  2:{ unfold staged_licenses in H. apply getitem_Ok in Hlic.
      rewrite Hlic, bind_Ok, Ht in H. discriminate. }
  destruct (staged_licenses_Ok _ _ _ _ H Hlic Ht) as (rv & rl & Hrv & Hrl & Ho).
  destruct (set_truthy _) eqn:E; [discriminate|].
  inversion Ho; subst v. split; [|split].
  - unfold recipe_value. cbn. rewrite Hlic. reflexivity.
  - apply truthy_as_sequence. assumption.
  - rewrite Hrv. intros [= ->].
    rewrite (py_iter_as_sequence _ Ht) in Hrl. inversion Hrl; subst rl.
    destruct (license_items_nonempty _ Ht) as [x Hx].
    assert (set_truthy (list_to_set (license_items lic)
                        ∩ list_to_set (license_items lic)) = true) as E'
      by (apply set_truthy_inter; eauto).
    congruence.
Qed.

Lemma staged_vcs_url_Some recipe_info v :
  staged_vcs_url recipe_info = Ok (Some v) →
  recipe_info !! "url" = Some v ∧ truthy v = true.
Proof.
  unfold staged_vcs_url. intros H.
  apply bind_Ok_inv in H as (x & Hx & H). apply getitem_Ok in Hx.
  destruct (truthy x) eqn:Ht; inversion H; subst. auto.
Qed.

Lemma format_issue_tracker base :
  py_format "{}/community/issues" [base] = Ok (base +:+ "/community/issues").
Proof. reflexivity. Qed.

Lemma recipe_value_issue_tracker recipe_info :
  recipe_value recipe_info "issue_tracker_url"
  = match recipe_info !! "url" with
    | Some (PStr s) =>
        if truthy (PStr s)
        then Some (PStr (py_slice_to s (py_rfind s "/") +:+ "/community/issues"))
        else None
    | _ => None
    end.
Proof. reflexivity. Qed.

(** The issue tracker is the override when there is one, and otherwise the
    address derived from the recipe's url, or empty. *)
Lemma issue_tracker_Ok w recipe_info t :
  issue_tracker w recipe_info = Ok t →
  environ w !! "BINTRAY_ISSUE_TRACKER_URL" = Some t
  ∨ (environ w !! "BINTRAY_ISSUE_TRACKER_URL" = None
     ∧ (t = "" ∨ recipe_value recipe_info "issue_tracker_url" = Some (PStr t))).
Proof.
  unfold issue_tracker. intros H.
  apply bind_Ok_inv in H as (u & Hu & H). apply getitem_Ok in Hu.
  apply bind_Ok_inv in H as (d & Hd & H).
  injection H as <-.
  destruct (environ w !! "BINTRAY_ISSUE_TRACKER_URL") as [s|].
  - left. reflexivity.
  - right. split; [reflexivity|]. change (default d None) with d.
    destruct (truthy u) eqn:Etr.
    + right. apply bind_Ok_inv in Hd as (s & Hs & Hd).
      destruct u; try discriminate. inversion Hs; subst.
      rewrite format_issue_tracker in Hd. inversion Hd; subst d.
      rewrite recipe_value_issue_tracker, Hu, Etr. reflexivity.
    + left. inversion Hd. reflexivity.
Qed.

Lemma staged_issue_tracker_Some w recipe_info remote_info v :
  staged_issue_tracker w recipe_info remote_info = Ok (Some v) →
  from_recipe recipe_info remote_info "issue_tracker_url" v
  ∨ from_tracker_override w remote_info "issue_tracker_url" v.
Proof.
  unfold staged_issue_tracker. intros H.
  apply bind_Ok_inv in H as (t & Ht & H).
  destruct (String.eqb_spec t "") as [->|Hne]; [discriminate|]. cbn in H.
  apply bind_Ok_inv in H as (r & Hr & H). apply getitem_Ok in Hr.
  unfold py_ne in H. case_bool_decide as Hd; [|discriminate].
  inversion H; subst v.
  assert (remote_info !! "issue_tracker_url" ≠ Some (PStr t)) as Hrem
    by (rewrite Hr; congruence).
  assert (truthy (PStr t) = true) as Htr.
  { cbn. destruct (String.eqb_spec t ""); [contradiction | reflexivity]. }
  destruct (issue_tracker_Ok _ _ _ Ht) as [Henv|(Henv & [->|Hv])].
  - right. split; [reflexivity|]. exists t. auto.
  - contradiction.
  - left. split; [assumption|]. split; [assumption|]. right. assumption.
Qed.

Lemma staged_maturity_Some w remote_info v :
  staged_maturity w remote_info = Ok (Some v) →
  current_branch_stable w = Ok true ∧ v = PStr "Stable"
  ∧ remote_info !! "maturity" ≠ Some v.
Proof.
  unfold staged_maturity. intros H.
  apply bind_Ok_inv in H as (stable & Hst & H).
  destruct stable; [|discriminate]. cbn in H.
  destruct (maturity_outdated remote_info) eqn:E; [|discriminate].
  inversion H; subst v. split; [assumption|]. split; [reflexivity|].
  apply maturity_outdated_spec. assumption.
Qed.

(** C1, as the code has it.  Every entry of a payload the reconciler
    returns is of one of three kinds: a value that comes from the recipe,
    is not empty and differs from the remote one ([vcs_url] being staged
    without comparison); [maturity], with a stable branch only; or an
    issue tracker taken from [BINTRAY_ISSUE_TRACKER_URL], not empty and
    different from the remote one.  A recipe url that is not empty is always
    staged. *)
Theorem payload_entries w recipe_info remote_info upd :
  _update_package_info w recipe_info remote_info = Ok upd →
  ∃ stable, current_branch_stable w = Ok stable
    ∧ (∀ k v, dict_get upd k = Some v →
         from_recipe recipe_info remote_info k v
         ∨ from_stable_branch stable remote_info k v
         ∨ from_tracker_override w remote_info k v)
    ∧ (∀ u, recipe_info !! "url" = Some u → truthy u = true →
         dict_get upd "vcs_url" = Some u).
Proof.
  intros H.
  destruct (update_classifies_branch _ _ _ _ H) as (stable & Hst).
  exists stable. split; [assumption|]. split.
  2:{ intros u Hu Ht. eapply vcs_url_lookup; eassumption. }
  apply update_package_info_Ok in H as (s & Hs & ->).
  destruct Hs as (H1 & H2 & H3 & H4 & H5 & H6 & H7).
  intros k v Hk.
  destruct (payload_keys _ _ _ Hk)
    as [[-> E]|[[-> E]|[[-> E]|[[-> E]|[[-> E]|[[-> E]|[-> E]]]]]]];
    rewrite E in *.
  - left. apply staged_if_differs_Some in H1 as (? & ? & ?).
    split; [assumption|]. split; [assumption|]. right. assumption.
  - left. apply staged_if_differs_Some in H2 as (? & ? & ?).
    split; [assumption|]. split; [assumption|]. right. assumption.
  - left. apply staged_licenses_Some in H3 as (? & ? & ?).
    split; [assumption|]. split; [assumption|]. right. assumption.
  - left. apply staged_vcs_url_Some in H4 as (? & ?).
    split; [assumption|]. split; [assumption|]. left. reflexivity.
  - apply staged_issue_tracker_Some in H5 as [?|?]; auto.
  - right. left. apply staged_maturity_Some in H6 as (Hst' & -> & ?).
    rewrite Hst in Hst'. injection Hst' as ->.
    split; [reflexivity|]. auto.
  - left. apply staged_if_differs_Some in H7 as (? & ? & ?).
    split; [assumption|]. split; [assumption|]. right. assumption.
Qed.

Lemma payload_entries_witness :
  ∃ stable,
    current_branch_stable (offline_world tracker_override git_on_develop)
    = Ok stable
    ∧ (∀ k v,
         dict_get [("issue_tracker_url", PStr "https://issues.example.org")] k
         = Some v →
         from_recipe empty_recipe_info sample_remote_info k v
         ∨ from_stable_branch stable sample_remote_info k v
         ∨ from_tracker_override
             (offline_world tracker_override git_on_develop)
             sample_remote_info k v)
    ∧ (∀ u, empty_recipe_info !! "url" = Some u → truthy u = true →
         dict_get [("issue_tracker_url", PStr "https://issues.example.org")]
           "vcs_url" = Some u).
Proof.
  apply (payload_entries (offline_world tracker_override git_on_develop)
           empty_recipe_info sample_remote_info).
  vm_compute. reflexivity.
Defined.

(** The invariant as it is worded fails: with the override set, a recipe
    that declares nothing still gets an issue tracker staged. *)
Lemma tracker_override_outside_invariant :
  _update_package_info (offline_world tracker_override git_on_develop)
    empty_recipe_info sample_remote_info
  = Ok [("issue_tracker_url", PStr "https://issues.example.org")]
  ∧ current_branch_stable (offline_world tracker_override git_on_develop)
    = Ok false
  ∧ ¬ payload_invariant false empty_recipe_info sample_remote_info
        [("issue_tracker_url", PStr "https://issues.example.org")].
Proof.
  split; [vm_compute; reflexivity|]. split; [vm_compute; reflexivity|].
  intros Hinv.
  destruct (Hinv "issue_tracker_url" (PStr "https://issues.example.org")
              eq_refl) as [(Hv & _)|(Hk & _)].
  - vm_compute in Hv. discriminate.
  - discriminate.
Qed.

(** ** When the reconciler returns *)

Lemma returns_Ok {A} (r : result A) : returns r = true ↔ ∃ a, r = Ok a.
Proof.
  destruct r; cbn; split; eauto; try discriminate.
  intros [a H]. discriminate.
Qed.

Lemma returns_bind {A B} (m : result A) (f : A → result B) :
  returns (m ≫= f) = true ↔ ∃ a, m = Ok a ∧ returns (f a) = true.
Proof.
  destruct m as [a|e]; cbn; split.
  - eauto.
  - intros (a' & [= <-] & H). assumption.
  - discriminate.
  - intros (a' & H & _). discriminate.
Qed.

Lemma staged_if_differs_returns recipe_info remote_info attr field :
  is_Some (recipe_info !! attr) →
  returns (staged_if_differs recipe_info remote_info attr field) = true
  ↔ (declared (recipe_info !! attr) = true → is_Some (remote_info !! field)).
Proof.
  intros [v Hv]. unfold staged_if_differs, getitem. rewrite Hv. cbn.
  destruct (truthy v); [|cbn; intuition congruence].
  destruct (remote_info !! field) as [r|]; cbn.
  - split; eauto.
  - split; [discriminate|]. intros H. destruct (H eq_refl) as [? ?].
    discriminate.
Qed.

Lemma py_iter_returns rv : returns (py_iter rv) = true ↔ rv ≠ PNone.
Proof. destruct rv; cbn; split; congruence. Qed.

Lemma staged_licenses_returns recipe_info remote_info :
  is_Some (recipe_info !! "license") →
  returns (staged_licenses recipe_info remote_info) = true
  ↔ (declared (recipe_info !! "license") = true →
     ∃ rv, remote_info !! "licenses" = Some rv ∧ rv ≠ PNone).
Proof.
  intros [lic Hlic]. unfold staged_licenses, getitem. rewrite Hlic. cbn.
  destruct (truthy lic) eqn:Ht; [|cbn; intuition congruence].
  rewrite (py_set_as_sequence _ Ht). cbn.
  destruct (remote_info !! "licenses") as [rv|]; cbn.
  - unfold py_intersection.
    pose proof (py_iter_returns rv) as Hit.
    destruct (py_iter rv) as [rl|e]; cbn in *.
    + split; [|reflexivity]. intros _ _. exists rv. split; [reflexivity|].
      apply Hit. reflexivity.
    + split; [discriminate|]. intros H.
      destruct (H eq_refl) as (rv' & [= <-] & Hne).
      apply Hit in Hne. discriminate.
  - split; [discriminate|]. intros H.
    destruct (H eq_refl) as (rv' & ? & _). discriminate.
Qed.

Lemma issue_tracker_returns w recipe_info :
  recipe_well_formed recipe_info →
  ∃ t, issue_tracker w recipe_info = Ok t.
Proof.
  intros (_ & _ & _ & _ & u & Hu & Hstr).
  unfold issue_tracker, getitem. rewrite Hu. cbn.
  destruct (truthy u); [|cbn; eauto].
  destruct u; try (specialize (Hstr eq_refl); discriminate).
  cbn. eauto.
Qed.

Lemma staged_issue_tracker_returns w recipe_info remote_info :
  recipe_well_formed recipe_info →
  returns (staged_issue_tracker w recipe_info remote_info) = true
  ↔ (∀ t, issue_tracker w recipe_info = Ok t → t ≠ "" →
     is_Some (remote_info !! "issue_tracker_url")).
Proof.
  intros Hwf. destruct (issue_tracker_returns w _ Hwf) as [t Ht].
  unfold staged_issue_tracker. rewrite Ht, bind_Ok.
  destruct (String.eqb_spec t "") as [->|Hne]; cbn.
  - split; [|reflexivity]. intros _ t' [= <-] Hne. contradiction.
  - unfold getitem.
    destruct (remote_info !! "issue_tracker_url") as [r|]; cbn.
    + split; eauto.
    + split; [discriminate|]. intros H.
      destruct (H t eq_refl Hne) as [? ?]. discriminate.
Qed.

(** C10, as the code has it.  For a well-formed recipe and a branch that can
    be classified, the reconciler returns a payload exactly when the remote
    record holds every field it compares: [desc], [labels], [licenses]
    (iterable), [issue_tracker_url] and [website_url], each one only when
    the value to compare it with is not empty.  [maturity] may be missing,
    and [vcs_url] is never read. *)
Theorem returns_iff_compared_fields_present w recipe_info remote_info :
  recipe_well_formed recipe_info →
  returns (current_branch_stable w) = true →
  returns (_update_package_info w recipe_info remote_info) = true
  ↔ remote_sufficient w recipe_info remote_info.
Proof.
  intros Hwf Hbranch.
  pose proof Hwf as (Hd & Htop & Hlic & Hhome & u & Hu & Hstr).
  rewrite update_package_info_staged. unfold staged_all, remote_sufficient.
  rewrite <- (staged_if_differs_returns _ remote_info _ "desc" Hd).
  rewrite <- (staged_if_differs_returns _ remote_info _ "labels" Htop).
  rewrite <- (staged_licenses_returns _ remote_info Hlic).
  rewrite <- (staged_issue_tracker_returns w _ remote_info Hwf).
  rewrite <- (staged_if_differs_returns _ remote_info _ "website_url" Hhome).
  assert (Hvcs : ∃ o, staged_vcs_url recipe_info = Ok o).
  { unfold staged_vcs_url, getitem. rewrite Hu. cbn. eauto. }
  destruct Hvcs as [o4 H4].
  assert (Hmat : ∃ o, staged_maturity w remote_info = Ok o).
  { unfold staged_maturity. apply returns_Ok in Hbranch as [b ->].
    cbn. eauto. }
  destruct Hmat as [o6 H6].
  rewrite H4, H6.
  destruct (staged_if_differs recipe_info remote_info "description" "desc");
    cbn; [|intuition discriminate].
  destruct (staged_if_differs recipe_info remote_info "topics" "labels");
    cbn; [|intuition discriminate].
  destruct (staged_licenses recipe_info remote_info);
    cbn; [|intuition discriminate].
  destruct (staged_issue_tracker w recipe_info remote_info);
    cbn; [|intuition discriminate].
  destruct (staged_if_differs recipe_info remote_info "homepage" "website_url");
    cbn; [|intuition discriminate].
  tauto.
Qed.

Lemma returns_iff_compared_fields_present_witness :
  returns (_update_package_info (offline_world ∅ git_on_develop)
             sample_recipe_info
             (delete "maturity" (delete "vcs_url" sample_remote_info))) = true
  ↔ remote_sufficient (offline_world ∅ git_on_develop) sample_recipe_info
      (delete "maturity" (delete "vcs_url" sample_remote_info)).
Proof.
  apply (returns_iff_compared_fields_present (offline_world ∅ git_on_develop)).
  - unfold recipe_well_formed. repeat split; vm_compute; eauto.
  - vm_compute. reflexivity.
Defined.

(** A record without [maturity] and [vcs_url] is accepted. *)
Lemma missing_maturity_accepted :
  _update_package_info (offline_world travis_on_master git_on_develop)
    sample_recipe_info
    (delete "maturity" (delete "vcs_url" sample_remote_info))
  = Ok [("desc", PStr "new"); ("labels", PList ["a"; "b"]);
        ("vcs_url", PStr "https://x/y");
        ("issue_tracker_url", PStr "https://x/community/issues");
        ("maturity", PStr "Stable"); ("website_url", PStr "https://x")].
Proof. vm_compute. reflexivity. Qed.

(** The claim as it is worded fails: a record without [desc] makes the
    reconciler raise as soon as the recipe has a description. *)
Lemma missing_desc_raises :
  delete "desc" sample_remote_info !! "desc" = None
  ∧ _update_package_info (offline_world ∅ git_on_develop)
      sample_recipe_info (delete "desc" sample_remote_info)
    = raise KeyError "'desc'".
Proof. split; vm_compute; reflexivity. Qed.

(** ** Exceptions never leave the hook *)

Lemma catchable_bind {A B} (m : result A) (f : A → result B) :
  catchable m → (∀ a, m = Ok a → catchable (f a)) → catchable (m ≫= f).
Proof. destruct m as [a|e]; cbn; auto. Qed.

Lemma catchable_getitem d k : catchable (getitem d k).
Proof. unfold getitem. destruct (d !! k); cbn; auto. Qed.

Lemma catchable_py_iter v : catchable (py_iter v).
Proof. destruct v; cbn; auto. Qed.

Lemma catchable_str_method v meth : catchable (str_method v meth).
Proof. destruct v; cbn; auto. Qed.

Lemma catchable_py_format fmt args : catchable (py_format fmt args).
Proof.
  remember (String.length fmt) as n eqn:Hn.
  revert fmt args Hn.
  induction n as [n IH] using lt_wf_ind. intros fmt args Hn.
  destruct fmt as [|c fmt]; [exact I|]. cbn [py_format].
  destruct (Ascii.eqb c "{").
  - destruct fmt as [|d fmt]; [reflexivity|].
    destruct (Ascii.eqb d "}"); [|reflexivity].
    destruct args as [|a args]; [reflexivity|].
    apply catchable_bind; [|intros; exact I].
    eapply IH; [|reflexivity]. subst n. cbn. lia.
  - apply catchable_bind; [|intros; exact I].
    eapply IH; [|reflexivity]. subst n. cbn. lia.
Qed.

Lemma catchable_percent_go fmt arg : catchable (percent_go fmt arg).
Proof.
  remember (String.length fmt) as n eqn:Hn.
  revert fmt arg Hn.
  induction n as [n IH] using lt_wf_ind. intros fmt arg Hn.
  destruct fmt as [|c fmt]; [destruct arg; cbn; auto|]. cbn [percent_go].
  destruct (Ascii.eqb c "%").
  - destruct fmt as [|d fmt]; [reflexivity|].
    destruct (Ascii.eqb d "s").
    + destruct arg; [|reflexivity].
      apply catchable_bind; [|intros; exact I].
      eapply IH; [|reflexivity]. subst n. cbn. lia.
    + destruct (Ascii.eqb d "%"); [|reflexivity].
      apply catchable_bind; [|intros; exact I].
      eapply IH; [|reflexivity]. subst n. cbn. lia.
  - apply catchable_bind; [|intros; exact I].
    eapply IH; [|reflexivity]. subst n. cbn. lia.
Qed.

Lemma catchable_compile_groups pattern : catchable (compile_groups pattern).
Proof. unfold compile_groups. destruct (Re.compile pattern); cbn; auto. Qed.

Lemma catchable_compile_test w pattern :
  (∀ p, catchable (re_other w p)) → catchable (compile_test w pattern).
Proof. intros H. unfold compile_test. destruct (Re.compile pattern); cbn; auto. Qed.

Lemma catchable_stable_loop w branch patterns :
  (∀ p, catchable (re_other w p)) →
  catchable (stable_loop w branch patterns).
Proof.
  intros H. induction patterns as [|p ps IH]; [exact I|]. cbn [stable_loop].
  apply catchable_bind; [apply catchable_compile_test, H|]. intros prog _.
  destruct (_ && _); [exact I | exact IH].
Qed.

Lemma catchable_get_branch w :
  catchable (git_branch_cmd w) → catchable (_get_branch w).
Proof.
  intros H. unfold _get_branch.
  destruct (ci_branch _ _); [exact I|].
  destruct (git_branch_cmd w) as [out|e]; [exact I|].
  cbn in H. rewrite H. exact I.
Qed.

Lemma catchable_extract_user_repo remote :
  catchable (_extract_user_repo remote).
Proof.
  unfold _extract_user_repo.
  apply catchable_bind; [apply catchable_compile_groups|]. intros prog _.
  destruct (Re.match_ prog (url remote)) as [m|].
  - destruct (Re.group m 1), (Re.group m 2); cbn; auto.
  - apply catchable_bind; [apply catchable_percent_go|]. intros; reflexivity.
Qed.

Lemma catchable_package_url w remote reference :
  catchable (_get_bintray_package_url w remote reference).
Proof.
  unfold _get_bintray_package_url.
  apply catchable_bind; [apply catchable_extract_user_repo|].
  intros [user repo] _.
  apply catchable_bind; [apply catchable_py_format|]. intros package _.
  apply catchable_py_format.
Qed.

Lemma catchable_credentials w remote : catchable (_get_credentials w remote).
Proof.
  unfold _get_credentials.
  apply catchable_bind; [apply catchable_percent_go|]. intros scoped _.
  destruct (find _ _) as [[username|]|]; try reflexivity.
  apply catchable_bind; [apply catchable_percent_go|]. intros scoped_pw _.
  destruct (env_truthy _); reflexivity.
Qed.

Lemma catchable_staged_if_differs recipe_info remote_info attr field :
  catchable (staged_if_differs recipe_info remote_info attr field).
Proof.
  unfold staged_if_differs.
  apply catchable_bind; [apply catchable_getitem|]. intros v _.
  destruct (truthy v); [|exact I].
  apply catchable_bind; [apply catchable_getitem|]. intros; exact I.
Qed.

Lemma catchable_update_package_info w recipe_info remote_info :
  catchable (git_branch_cmd w) →
  (∀ p, catchable (re_other w p)) →
  catchable (_update_package_info w recipe_info remote_info).
Proof.
  intros Hgit Hre. rewrite update_package_info_staged. unfold staged_all.
  apply catchable_bind; [apply catchable_staged_if_differs|]. intros o1 _.
  apply catchable_bind; [apply catchable_staged_if_differs|]. intros o2 _.
  apply catchable_bind.
  { unfold staged_licenses.
    apply catchable_bind; [apply catchable_getitem|]. intros lic _.
    destruct (truthy lic); [|exact I].
    apply catchable_bind.
    { unfold py_set. apply catchable_bind; [apply catchable_py_iter|].
      intros; exact I. }
    intros s _.
    apply catchable_bind; [apply catchable_getitem|]. intros rv _.
    apply catchable_bind; [|intros; exact I].
    unfold py_intersection. apply catchable_bind; [apply catchable_py_iter|].
    intros; exact I. }
  intros o3 _.
  apply catchable_bind.
  { unfold staged_vcs_url.
    apply catchable_bind; [apply catchable_getitem|]. intros; exact I. }
  intros o4 _.
  apply catchable_bind.
  { unfold staged_issue_tracker, issue_tracker.
    apply catchable_bind.
    { apply catchable_bind; [apply catchable_getitem|]. intros u _.
      apply catchable_bind; [|intros; exact I].
      destruct (truthy u); [|exact I].
      apply catchable_bind; [apply catchable_str_method|]. intros s _.
      apply catchable_py_format. }
    intros t _. destruct (negb _); [|exact I].
    apply catchable_bind; [apply catchable_getitem|]. intros; exact I. }
  intros o5 _.
  apply catchable_bind.
  { unfold staged_maturity, current_branch_stable.
    apply catchable_bind; [|intros; exact I].
    apply catchable_bind; [apply catchable_get_branch; assumption|].
    intros branch _. apply catchable_stable_loop. assumption. }
  intros o6 _.
  apply catchable_bind; [apply catchable_staged_if_differs|]. intros; exact I.
Qed.

Lemma error_lines_app tr1 tr2 :
  error_lines (tr1 ++ tr2) = (error_lines tr1 ++ error_lines tr2)%list.
Proof. unfold error_lines. apply omap_app. Qed.

Lemma tame_bind {A B} (m : M A) (f : A → M B) :
  tame m → (∀ a, tame (f a)) → tame (m ≫= f).
Proof.
  intros Hm Hf tr. specialize (Hm tr). unfold mbind, M_bind.
  destruct (m tr) as [[a|e] tr1]; simpl fst in *; simpl snd in *.
  - destruct Hm as [_ He]. destruct (Hf a tr1) as [Hc' He'].
    split; [exact Hc' | rewrite He'; exact He].
  - exact Hm.
Qed.

Lemma tame_lift {A} (r : result A) : catchable r → tame (lift r).
Proof. intros H tr. split; [exact H | reflexivity]. Qed.

Lemma tame_bind_lift {A B} (r : result A) (f : A → M B) :
  catchable r → (∀ a, r = Ok a → tame (f a)) → tame (lift r ≫= f).
Proof.
  intros Hr Hf tr. unfold mbind, M_bind, lift.
  destruct r as [a|e].
  - apply Hf. reflexivity.
  - split; [exact Hr | reflexivity].
Qed.

Lemma tame_emit e : not_error e → tame (emit e).
Proof.
  intros H tr. split; [exact I|]. unfold emit. simpl snd.
  rewrite error_lines_app.
  destruct e; try contradiction; apply app_nil_r.
Qed.

Lemma tame_ret {A} (a : A) : tame (mret a : M A).
Proof. intros tr. split; [exact I | reflexivity]. Qed.

Lemma tame_get_package_info_from_bintray w package_url :
  failures_are_exceptions w →
  tame (_get_package_info_from_bintray w package_url).
Proof.
  intros Hw. unfold _get_package_info_from_bintray.
  apply tame_bind; [apply tame_emit; exact I|]. intros _.
  apply tame_bind_lift; [apply get_catchable; assumption|].
  intros response Hget.
  destruct (negb (resp_ok response)).
  - apply tame_bind_lift; [apply catchable_py_format|].
    intros msg _. apply tame_lift. reflexivity.
  - apply tame_lift. eapply get_json_catchable; eassumption.
Qed.

Lemma tame_get_package_info_from_recipe w conanfile_path :
  failures_are_exceptions w →
  tame (_get_package_info_from_recipe w conanfile_path).
Proof.
  intros Hw. unfold _get_package_info_from_recipe.
  apply tame_bind; [apply tame_emit; exact I|]. intros _.
  apply tame_lift, inspect_catchable. assumption.
Qed.

Lemma tame_patch_bintray_package_info w package_url package_info remote :
  failures_are_exceptions w →
  tame (_patch_bintray_package_info w package_url package_info remote).
Proof.
  intros Hw. unfold _patch_bintray_package_info.
  destruct (negb (py_contains "https" package_url)).
  { apply tame_lift. reflexivity. }
  apply tame_bind_lift; [apply catchable_credentials|].
  intros [username password] _.
  apply tame_bind; [apply tame_emit; exact I|]. intros _.
  apply tame_bind_lift; [apply patch_catchable; assumption|].
  intros response Hpatch.
  destruct (negb (resp_ok response)).
  - apply tame_bind_lift; [apply catchable_py_format|].
    intros msg _. apply tame_lift. reflexivity.
  - apply tame_lift. eapply patch_json_catchable; eassumption.
Qed.

Lemma tame_upload_sequence w conanfile_path reference remote :
  failures_are_exceptions w →
  tame (upload_sequence w conanfile_path reference remote).
Proof.
  intros Hw. unfold upload_sequence.
  apply tame_bind_lift; [apply catchable_package_url|]. intros package_url _.
  apply tame_bind; [apply tame_emit; exact I|]. intros _.
  apply tame_bind; [apply tame_get_package_info_from_bintray; assumption|].
  intros remote_info.
  apply tame_bind; [apply tame_emit; exact I|]. intros _.
  apply tame_bind; [apply tame_get_package_info_from_recipe; assumption|].
  intros recipe_info.
  apply tame_bind_lift.
  { apply catchable_update_package_info;
      [apply git_catchable | apply re_other_catchable]; assumption. }
  intros updated_info _.
  destruct updated_info as [|kv rest].
  - apply tame_emit. exact I.
  - apply tame_bind_lift; [apply catchable_py_format|]. intros msg _.
    apply tame_bind; [apply tame_emit; exact I|]. intros _.
    apply tame_bind; [apply tame_patch_bintray_package_info; assumption|].
    intros _. apply tame_ret.
Qed.

(** C7. When the failures of the world are exceptions (configuration,
    transport and delegation errors), [post_upload_recipe] returns normally
    from every starting trace.  If its sequence of steps raised, the error
    is written once with [output.error], as the text of the exception, and
    that is the only error line added; if it did not, no error line is
    added. *)
Theorem post_upload_recipe_never_raises w conanfile_path reference remote tr :
  failures_are_exceptions w →
  ∃ tr',
    post_upload_recipe w conanfile_path reference remote tr = (Ok tt, tr')
    ∧ match upload_sequence w conanfile_path reference remote tr with
      | (Ok _, tr1) => tr' = tr1 ∧ error_lines tr' = error_lines tr
      | (Raise e, tr1) =>
          tr' = (tr1 ++ [OutError (exn_str e)])%list
          ∧ error_lines tr' = (error_lines tr ++ [exn_str e])%list
      end.
Proof.
  intros Hw. unfold post_upload_recipe, try_except.
  destruct (tame_upload_sequence w conanfile_path reference remote Hw tr)
    as [Hc He].
  destruct (upload_sequence w conanfile_path reference remote tr)
    as [[[]|e] tr1]; simpl fst in *; simpl snd in *.
  - exists tr1. auto.
  - cbn in Hc. rewrite Hc. unfold emit.
    eexists. split; [reflexivity|]. split; [reflexivity|].
    rewrite error_lines_app, He. reflexivity.
Qed.

Lemma post_upload_recipe_never_raises_witness :
  ∃ tr',
    post_upload_recipe (offline_world ∅ git_on_develop) "conanfile.py"
      httpserver_reference acme_remote [] = (Ok tt, tr')
    ∧ match upload_sequence (offline_world ∅ git_on_develop) "conanfile.py"
              httpserver_reference acme_remote [] with
      | (Ok _, tr1) => tr' = tr1 ∧ error_lines tr' = error_lines []
      | (Raise e, tr1) =>
          tr' = (tr1 ++ [OutError (exn_str e)])%list
          ∧ error_lines tr' = (error_lines [] ++ [exn_str e])%list
      end.
Proof.
  apply (post_upload_recipe_never_raises (offline_world ∅ git_on_develop)).
  constructor; intros; try discriminate; reflexivity.
Defined.

(** The failure of the read request is what the host finds in its log. *)
Lemma offline_upload_logs_the_failure :
  post_upload_recipe (offline_world ∅ git_on_develop) "conanfile.py"
    httpserver_reference acme_remote []
  = (Ok tt,
     [OutInfo "Reading package info form Bintray...";
      HttpGet "https://api.bintray.com/packages/acme/public-conan/libhttpserver%3Aacme";
      OutError "connection refused"]).
Proof. vm_compute. reflexivity. Qed.

(** ** The write request *)

(** Without the text https anywhere in the address, the write is refused
    before anything is sent. *)
Lemma patch_refused_without_https w package_url package_info remote tr :
  py_contains "https" package_url = false →
  _patch_bintray_package_info w package_url package_info remote tr
  = (raise ValueError
       "Bad package URL: Only HTTPS is allowed, Bintray API uses Basic Auth",
     tr).
Proof.
  intros H. unfold _patch_bintray_package_info. rewrite H. reflexivity.
Qed.

(** The test is on the whole address: whenever https occurs somewhere in
    it and the credentials are found, they are sent. *)
Lemma patch_sent_when_https_occurs w package_url package_info remote tr u p :
  py_contains "https" package_url = true →
  _get_credentials w remote = Ok (u, p) →
  ∃ r tr',
    _patch_bintray_package_info w package_url package_info remote tr
    = (r, (tr ++ [HttpPatch package_url package_info u p] ++ tr')%list).
Proof.
  intros H Hc. unfold _patch_bintray_package_info. rewrite H. cbn [negb].
  unfold mbind, M_bind, lift, emit. rewrite Hc.
  destruct (requests_patch w package_url package_info u p) as [resp|e].
  - destruct (negb (resp_ok resp)).
    + destruct (py_format _ _); eexists _, []; reflexivity.
    + eexists _, []; reflexivity.
  - eexists _, []; reflexivity.
Qed.

(** C8, where the code departs from it.  With the API host set to a
    plain-HTTP mirror and a package called libhttpserver, the address of
    the package does not start with https, but the letters occur in the
    package name: the check passes and the credentials go out with the
    PATCH request. *)
Theorem credentials_sent_over_plain_http :
  _get_bintray_package_url plain_http_world acme_remote httpserver_reference
  = Ok plain_http_package_url
  ∧ py_startswith plain_http_package_url "http://" = true
  ∧ py_startswith plain_http_package_url "https" = false
  ∧ _patch_bintray_package_info plain_http_world plain_http_package_url
      sample_payload acme_remote []
    = (Ok ∅, [HttpPatch plain_http_package_url sample_payload "bob" "secret"])
  ∧ post_upload_recipe plain_http_world "conanfile.py" httpserver_reference
      acme_remote []
    = (Ok tt,
       [OutInfo "Reading package info form Bintray...";
        HttpGet plain_http_package_url;
        OutInfo "Inspecting recipe info ...";
        Inspect "conanfile.py";
        OutInfo "Bintray is outdated. Updating Bintray package info: desc labels vcs_url issue_tracker_url website_url";
        HttpPatch plain_http_package_url sample_payload "bob" "secret"]).
Proof. repeat split; vm_compute; reflexivity. Qed.

(** ** The remote address *)

Lemma brace_format_with_percent n :
  py_percent "The remote {} is not a Bintray repository." n
  = raise TypeError "not all arguments converted during string formatting".
Proof. reflexivity. Qed.

(** Whatever the remote, an address that does not match ends in the same
    [TypeError], which names no remote. *)
Lemma extract_user_repo_no_match remote prog :
  compile_groups bintray_pattern = Ok prog →
  Re.match_ prog (url remote) = None →
  _extract_user_repo remote
  = raise TypeError "not all arguments converted during string formatting".
Proof.
  intros Hp Hm. unfold _extract_user_repo.
  rewrite Hp, bind_Ok, Hm, brace_format_with_percent. reflexivity.
Qed.

(** An address that matches gives the two groups. *)
Lemma extract_user_repo_match remote prog m user repo :
  compile_groups bintray_pattern = Ok prog →
  Re.match_ prog (url remote) = Some m →
  Re.group m 1 = Some user → Re.group m 2 = Some repo →
  _extract_user_repo remote = Ok (user, repo).
Proof.
  intros Hp Hm H1 H2. unfold _extract_user_repo.
  rewrite Hp, bind_Ok, Hm, H1, H2. reflexivity.
Qed.

(** C9, where the code departs from it.  For the remote of Conan Center,
    whose address does not match the pattern, [_extract_user_repo] raises a
    [TypeError] about string formatting; the text says nothing of the
    remote.  A remote whose address matches gives owner and repository. *)
Theorem extract_user_repo_wrong_error :
  _extract_user_repo conan_center
  = raise TypeError "not all arguments converted during string formatting"
  ∧ py_contains (name conan_center)
      "not all arguments converted during string formatting" = false
  ∧ _extract_user_repo acme_remote = Ok ("acme", "public-conan").
Proof. repeat split; vm_compute; reflexivity. Qed.

(** ** Groups of a match *)

Lemma assoc_cons {A} i j (x : A) l :
  Re.assoc i ((j, x) :: l) = if Nat.eqb j i then Some x else Re.assoc i l.
Proof. unfold Re.assoc. cbn. destruct (Nat.eqb j i); reflexivity. Qed.

(** A successful match keeps the groups closed before it and closes every
    group whose end its tokens contain. *)
Lemma exec_groups p :
  ∀ s pos m m', Re.exec p s pos m = Some m' →
    (∀ i, is_Some (Re.assoc i (Re.spans m)) →
          is_Some (Re.assoc i (Re.spans m')))
    ∧ (∀ i, Re.Close i ∈ p → is_Some (Re.assoc i (Re.spans m'))).
Proof.
  induction p as [|t p IH]; intros s pos m m' H.
  - injection H as <-. split; [auto|]. intros i Hi. inversion Hi.
  - assert (Htail : ∀ s pos m m', Re.exec p s pos m = Some m' →
              ∀ i, Re.Close i ∈ t :: p → t ≠ Re.Close i →
                   is_Some (Re.assoc i (Re.spans m'))).
    { intros s0 pos0 m0 m0' H0 i Hi Hne.
      apply elem_of_cons in Hi as [Hi|Hi]; [congruence|].
      eapply IH; eassumption. }
    destruct t as [a|a|a| |j|j].
    + destruct s as [|c s]; [discriminate|]. cbn in H.
      destruct (Re.atom_ok a c); [|discriminate].
      split; [apply (IH _ _ _ _ H)|].
      intros i Hi. eapply Htail; [exact H|exact Hi|discriminate].
    + revert pos H. induction s as [|c s IHs]; intros pos H;
        rewrite exec_star_unfold in H.
      * split; [apply (IH _ _ _ _ H)|].
        intros i Hi. eapply Htail; [exact H|exact Hi|discriminate].
      * destruct (Re.atom_ok a c).
        2:{ split; [apply (IH _ _ _ _ H)|].
            intros i Hi. eapply Htail; [exact H|exact Hi|discriminate]. }
        destruct (Re.exec (Re.Star a :: p) s (S pos) m) as [r|] eqn:E.
        -- injection H as ->. apply (IHs _ E).
        -- split; [apply (IH _ _ _ _ H)|].
           intros i Hi. eapply Htail; [exact H|exact Hi|discriminate].
    + assert (Hskip : Re.exec p s pos m = Some m' →
                (∀ i, is_Some (Re.assoc i (Re.spans m)) →
                      is_Some (Re.assoc i (Re.spans m')))
                ∧ (∀ i, Re.Close i ∈ Re.Opt a :: p →
                        is_Some (Re.assoc i (Re.spans m')))).
      { intros H0. split; [apply (IH _ _ _ _ H0)|].
        intros i Hi. eapply Htail; [exact H0|exact Hi|discriminate]. }
      destruct s as [|c s]; cbn in H; [auto|].
      destruct (Re.atom_ok a c); [|auto].
      destruct (Re.exec p s (S pos) m) as [r|] eqn:E; [|auto].
      injection H as ->. split; [apply (IH _ _ _ _ E)|].
      intros i Hi. eapply Htail; [exact E|exact Hi|discriminate].
    + cbn in H. destruct (_ || _); [|discriminate].
      split; [apply (IH _ _ _ _ H)|].
      intros i Hi. eapply Htail; [exact H|exact Hi|discriminate].
    + cbn in H. split; [apply (IH _ _ _ _ H)|].
      intros i Hi. eapply Htail; [exact H|exact Hi|discriminate].
    + cbn in H. destruct (Re.assoc j (Re.starts m)) as [st|]; [|discriminate].
      destruct (IH _ _ _ _ H) as [Hkeep Hclose].
      split.
      * intros i Hi. apply Hkeep. simpl Re.spans. rewrite assoc_cons.
        destruct (Nat.eqb j i); [eauto | assumption].
      * intros i Hi. apply elem_of_cons in Hi as [[= <-]|Hi]; [|auto].
        apply Hkeep. simpl Re.spans. rewrite assoc_cons, Nat.eqb_refl. eauto.
Qed.

Lemma group_is_Some prog s m i :
  Re.match_ prog s = Some m → Re.Close i ∈ prog → is_Some (Re.group m i).
Proof.
  unfold Re.match_. intros H Hi.
  destruct (Re.exec prog s 0%nat (Re.mk_marks [] [])) as [m'|] eqn:E;
    [|discriminate].
  injection H as <-. unfold Re.group. simpl Re.groups.
  destruct (exec_groups _ _ _ _ _ E) as [_ Hc].
  destruct (Hc i Hi) as [[st en] ->]. cbn. eauto.
Qed.

(** Every address that matches gives an owner and a repository: the two
    groups of the match. *)
Lemma extract_user_repo_on_match remote prog m :
  compile_groups bintray_pattern = Ok prog →
  Re.match_ prog (url remote) = Some m →
  ∃ user repo,
    Re.group m 1 = Some user ∧ Re.group m 2 = Some repo
    ∧ _extract_user_repo remote = Ok (user, repo).
Proof.
  intros Hp Hm.
  assert (Re.Close 1 ∈ prog ∧ Re.Close 2 ∈ prog) as [H1 H2].
  { vm_compute in Hp. injection Hp as <-.
    split; apply list_elem_of_In; cbn; auto 50. }
  destruct (group_is_Some _ _ _ _ Hm H1) as [user Hu].
  destruct (group_is_Some _ _ _ _ Hm H2) as [repo Hr].
  exists user, repo. split; [assumption|]. split; [assumption|].
  eapply extract_user_repo_match; eassumption.
Qed.

(** * Further properties of the module *)

(** ** The reconciler *)

Lemma staged_licenses_declared recipe_info remote_info v :
  staged_licenses recipe_info remote_info = Ok (Some v) →
  declared (recipe_info !! "license") = true.
Proof.
  unfold staged_licenses, getitem. intros H.
  destruct (recipe_info !! "license") as [lic|]; [|discriminate].
  cbn in *. destruct (truthy lic); [reflexivity | discriminate].
Qed.

(** X1. An attribute that the recipe does not declare, or declares empty,
    is never staged: no [desc] without a description, no [labels] without
    topics, no [licenses] without a license, no [vcs_url] without a url, no
    [website_url] without a homepage; and without a url and without the
    override of the issue tracker, no [issue_tracker_url]. *)
Theorem empty_attribute_not_staged w recipe_info remote_info upd :
  _update_package_info w recipe_info remote_info = Ok upd →
  (declared (recipe_info !! "description") = false → dict_get upd "desc" = None)
  ∧ (declared (recipe_info !! "topics") = false → dict_get upd "labels" = None)
  ∧ (declared (recipe_info !! "license") = false →
     dict_get upd "licenses" = None)
  ∧ (declared (recipe_info !! "url") = false → dict_get upd "vcs_url" = None)
  ∧ (declared (recipe_info !! "homepage") = false →
     dict_get upd "website_url" = None)
  ∧ (declared (recipe_info !! "url") = false →
     environ w !! "BINTRAY_ISSUE_TRACKER_URL" = None →
     dict_get upd "issue_tracker_url" = None).
Proof.
  intros H.
  apply update_package_info_Ok in H as (s & Hs & ->).
  destruct Hs as (H1 & H2 & H3 & H4 & H5 & H6 & H7).
  destruct (payload_lookup s) as (-> & -> & -> & -> & -> & _ & ->).
  repeat split.
  - intros Hd. destruct (st_desc s) as [v|]; [|reflexivity].
    apply staged_if_differs_Some in H1 as (E & Ht & _).
    rewrite E in Hd. cbn in Hd. congruence.
  - intros Hd. destruct (st_labels s) as [v|]; [|reflexivity].
    apply staged_if_differs_Some in H2 as (E & Ht & _).
    rewrite E in Hd. cbn in Hd. congruence.
  - intros Hd. destruct (st_licenses s) as [v|]; [|reflexivity].
    apply staged_licenses_declared in H3. congruence.
  - intros Hd. destruct (st_vcs_url s) as [v|]; [|reflexivity].
    apply staged_vcs_url_Some in H4 as (E & Ht).
    rewrite E in Hd. cbn in Hd. congruence.
  - intros Hd. destruct (st_website_url s) as [v|]; [|reflexivity].
    apply staged_if_differs_Some in H7 as (E & Ht & _).
    rewrite E in Hd. cbn in Hd. congruence.
  - intros Hd Henv. destruct (st_issue_tracker_url s) as [v|]; [|reflexivity].
    apply staged_issue_tracker_Some in H5 as [(Hv & Ht & _)|(_ & t & Ht & _)].
    + rewrite recipe_value_issue_tracker in Hv.
      destruct (recipe_info !! "url") as [[|u| |]|]; try discriminate.
      cbn [declared] in Hd. rewrite Hd in Hv. discriminate.
    + congruence.
Qed.

Lemma empty_attribute_not_staged_witness :
  (declared (empty_recipe_info !! "description") = false →
   dict_get [] "desc" = None)
  ∧ (declared (empty_recipe_info !! "topics") = false →
     dict_get [] "labels" = None)
  ∧ (declared (empty_recipe_info !! "license") = false →
     dict_get [] "licenses" = None)
  ∧ (declared (empty_recipe_info !! "url") = false →
     dict_get [] "vcs_url" = None)
  ∧ (declared (empty_recipe_info !! "homepage") = false →
     dict_get [] "website_url" = None)
  ∧ (declared (empty_recipe_info !! "url") = false →
     environ (offline_world ∅ git_on_develop) !! "BINTRAY_ISSUE_TRACKER_URL"
     = None →
     dict_get [] "issue_tracker_url" = None).
Proof.
  apply (empty_attribute_not_staged (offline_world ∅ git_on_develop)
           empty_recipe_info sample_remote_info).
  vm_compute. reflexivity.
Defined.

Lemma payload_keys_sublist s : sublist (keys (payload s)) payload_key_order.
Proof.
  destruct s as [[] [] [] [] [] [] []]; cbn;
    repeat first [apply sublist_nil | apply sublist_skip | apply sublist_cons].
Qed.

(** X2. The keys of a payload are written in a fixed order - desc, labels,
    licenses, vcs_url, issue_tracker_url, maturity, website_url - and none
    is written twice; an entry read back with its key is an entry of the
    list. *)
Theorem payload_keys_ordered w recipe_info remote_info upd :
  _update_package_info w recipe_info remote_info = Ok upd →
  sublist (keys upd) payload_key_order
  ∧ NoDup (keys upd)
  ∧ ∀ k v, dict_get upd k = Some v ↔ (k, v) ∈ upd.
Proof.
  intros H.
  apply update_package_info_Ok in H as (s & _ & ->).
  pose proof (payload_keys_sublist s) as Hsub.
  assert (Hnd : NoDup (keys (payload s))).
  { eapply sublist_NoDup; [|exact Hsub].
    apply (bool_decide_unpack _). vm_compute. exact I. }
  split; [assumption|]. split; [assumption|].
  revert Hnd. generalize (payload s). clear.
  induction d as [|[k0 v0] d IH]; intros Hnd k v; cbn.
  - split; [discriminate|]. intros Hin. inversion Hin.
  - apply NoDup_cons in Hnd as [Hk0 Hnd].
    destruct (String.eqb_spec k0 k) as [->|Hne].
    + split.
      * intros [= ->]. apply list_elem_of_here.
      * intros Hin. apply elem_of_cons in Hin as [[= ->]|Hin]; [reflexivity|].
        exfalso. apply Hk0. unfold keys.
        apply list_elem_of_fmap. exists (k, v). auto.
    + rewrite (IH Hnd). split.
      * intros Hin. apply list_elem_of_further. assumption.
      * intros Hin. apply elem_of_cons in Hin as [[= -> ->]|Hin];
          [contradiction | assumption].
Qed.

Lemma payload_keys_ordered_witness :
  sublist (keys sample_payload) payload_key_order
  ∧ NoDup (keys sample_payload)
  ∧ ∀ k v, dict_get sample_payload k = Some v ↔ (k, v) ∈ sample_payload.
Proof.
  apply (payload_keys_ordered (offline_world ∅ git_on_develop)
           sample_recipe_info sample_remote_info).
  vm_compute. reflexivity.
Defined.

Lemma staged_if_differs_Ok recipe_info remote_info attr field o v :
  staged_if_differs recipe_info remote_info attr field = Ok o →
  recipe_info !! attr = Some v → truthy v = true →
  ∃ r, remote_info !! field = Some r
       ∧ o = if decide (r = v) then None else Some v.
Proof.
  unfold staged_if_differs, getitem. intros H Hv Ht.
  rewrite Hv in H. cbn in H. rewrite Ht in H.
  destruct (remote_info !! field) as [r|]; [|discriminate].
  exists r. split; [reflexivity|]. cbn in H. unfold py_ne in H.
  injection H as <-.
  destruct (decide (r = v)) as [->|Hne].
  - rewrite bool_decide_eq_false_2; [reflexivity | tauto].
  - rewrite bool_decide_eq_true_2; [reflexivity | assumption].
Qed.

(** X3. A declared description, list of topics or homepage is staged
    whenever the remote field holds anything else, and only then: the
    payload has the recipe's value under [desc], [labels] or [website_url]
    unless the remote record holds that very value. *)
Theorem differing_attribute_staged w recipe_info remote_info upd attr field v :
  _update_package_info w recipe_info remote_info = Ok upd →
  (attr, field) ∈ [("description", "desc"); ("topics", "labels");
                   ("homepage", "website_url")] →
  recipe_info !! attr = Some v →
  truthy v = true →
  ∃ r, remote_info !! field = Some r
       ∧ dict_get upd field = if decide (r = v) then None else Some v.
Proof.
  intros H Hin Hv Ht.
  apply update_package_info_Ok in H as (s & Hs & ->).
  destruct Hs as (H1 & H2 & _ & _ & _ & _ & H7).
  destruct (payload_lookup s) as (E1 & E2 & _ & _ & _ & _ & E7).
  apply elem_of_cons in Hin as [[= -> ->]|Hin].
  { rewrite E1. eapply staged_if_differs_Ok; eassumption. }
  apply elem_of_cons in Hin as [[= -> ->]|Hin].
  { rewrite E2. eapply staged_if_differs_Ok; eassumption. }
  apply elem_of_cons in Hin as [[= -> ->]|Hin].
  { rewrite E7. eapply staged_if_differs_Ok; eassumption. }
  inversion Hin.
Qed.

Lemma differing_attribute_staged_witness :
  ∃ r, sample_remote_info !! "desc" = Some r
       ∧ dict_get sample_payload "desc"
         = if decide (r = PStr "new") then None else Some (PStr "new").
Proof.
  apply (differing_attribute_staged (offline_world ∅ git_on_develop)
           sample_recipe_info sample_remote_info sample_payload
           "description" "desc" (PStr "new")).
  - vm_compute. reflexivity.
  - apply list_elem_of_here.
  - vm_compute. reflexivity.
  - reflexivity.
Defined.

(** X4. Topics declared as a tuple are staged on every run: the remote
    labels are a list, and a list never equals a tuple, even with the same
    elements in the same order. *)
Theorem tuple_topics_always_staged w recipe_info remote_info upd l l' :
  _update_package_info w recipe_info remote_info = Ok upd →
  recipe_info !! "topics" = Some (PTuple l) →
  l ≠ [] →
  remote_info !! "labels" = Some (PList l') →
  dict_get upd "labels" = Some (PTuple l).
Proof.
  intros H Hv Hl Hr.
  apply update_package_info_Ok in H as (s & Hs & ->).
  destruct Hs as (_ & H2 & _).
  destruct (payload_lookup s) as (_ & -> & _).
  assert (truthy (PTuple l) = true) as Ht by (destruct l; [contradiction | reflexivity]).
  destruct (staged_if_differs_Ok _ _ _ _ _ _ H2 Hv Ht) as (r & Hr' & ->).
  rewrite Hr in Hr'. injection Hr' as <-.
  destruct (decide (PList l' = PTuple l)); [discriminate | reflexivity].
Qed.

Lemma tuple_topics_always_staged_witness :
  dict_get
    [("desc", PStr "new"); ("labels", PTuple ["a"; "b"]);
     ("vcs_url", PStr "https://x/y");
     ("issue_tracker_url", PStr "https://x/community/issues");
     ("website_url", PStr "https://x")] "labels"
  = Some (PTuple ["a"; "b"]).
Proof.
  apply (tuple_topics_always_staged (offline_world ∅ git_on_develop)
           (<["topics" := PTuple ["a"; "b"]]> sample_recipe_info)
           (<["labels" := PList ["a"; "b"]]> sample_remote_info)
           _ ["a"; "b"] ["a"; "b"]).
  - vm_compute. reflexivity.
  - vm_compute. reflexivity.
  - discriminate.
  - vm_compute. reflexivity.
Defined.

(** ** A second run *)

Lemma list_to_map_dict_get (d : dict) k :
  (list_to_map d : gmap string pyval) !! k = dict_get d k.
Proof.
  induction d as [|[k0 v0] d IH]; cbn.
  - apply lookup_empty.
  - rewrite lookup_insert, IH.
    destruct (String.eqb_spec k0 k) as [->|Hne].
    + rewrite decide_True; reflexivity.
    + rewrite decide_False; [reflexivity | assumption].
Qed.

Lemma apply_update_lookup upd remote_info k :
  apply_update upd remote_info !! k
  = match dict_get upd k with
    | Some v => Some v
    | None => remote_info !! k
    end.
Proof.
  unfold apply_update. rewrite lookup_union, list_to_map_dict_get.
  destruct (dict_get upd k), (remote_info !! k); reflexivity.
Qed.

Lemma staged_if_differs_settled recipe_info remote_info remote_info' attr field o :
  staged_if_differs recipe_info remote_info attr field = Ok o →
  remote_info' !! field
  = match o with Some v => Some v | None => remote_info !! field end →
  staged_if_differs recipe_info remote_info' attr field = Ok None.
Proof.
  unfold staged_if_differs, getitem. intros H Hr.
  destruct (recipe_info !! attr) as [v|]; [|discriminate]. cbn in *.
  destruct (truthy v); [|reflexivity].
  destruct (remote_info !! field) as [r|]; [|discriminate]. cbn in H.
  unfold py_ne in *. injection H as <-.
  case_bool_decide as Hd; rewrite Hr; cbn.
  - rewrite bool_decide_eq_false_2; [reflexivity | tauto].
  - rewrite bool_decide_eq_false_2; [reflexivity | tauto].
Qed.

Lemma staged_licenses_settled recipe_info remote_info remote_info' o :
  staged_licenses recipe_info remote_info = Ok o →
  remote_info' !! "licenses"
  = match o with Some v => Some v | None => remote_info !! "licenses" end →
  staged_licenses recipe_info remote_info' = Ok None.
Proof.
  intros H Hr.
  destruct (recipe_info !! "license") as [lic|] eqn:Hlic.
  2:{ unfold staged_licenses in H. rewrite (getitem_missing _ _ Hlic) in H.
      discriminate. }
  destruct (truthy lic) eqn:Ht.
  2:{ unfold staged_licenses, getitem. rewrite Hlic. cbn. rewrite Ht.
      reflexivity. }
  destruct (staged_licenses_Ok _ _ _ _ H Hlic Ht) as (rv & rl & Hrv & Hrl & ->).
  unfold staged_licenses, getitem. rewrite Hlic. cbn. rewrite Ht.
  rewrite (py_set_as_sequence _ Ht). cbn. rewrite Hr.
  destruct (set_truthy _) eqn:E.
  - rewrite Hrv. cbn. unfold py_intersection. rewrite Hrl. cbn.
    rewrite E. reflexivity.
  - cbn. unfold py_intersection. rewrite (py_iter_as_sequence _ Ht). cbn.
    destruct (license_items_nonempty _ Ht) as [x Hx].
    assert (set_truthy (list_to_set (license_items lic)
                        ∩ list_to_set (license_items lic)) = true) as ->
      by (apply set_truthy_inter; eauto).
    reflexivity.
Qed.

Lemma staged_issue_tracker_settled w recipe_info remote_info remote_info' o :
  staged_issue_tracker w recipe_info remote_info = Ok o →
  remote_info' !! "issue_tracker_url"
  = match o with
    | Some v => Some v
    | None => remote_info !! "issue_tracker_url"
    end →
  staged_issue_tracker w recipe_info remote_info' = Ok None.
Proof.
  unfold staged_issue_tracker, getitem. intros H Hr.
  destruct (issue_tracker w recipe_info) as [t|]; [|discriminate]. cbn in *.
  destruct (negb (String.eqb t "")); [|reflexivity].
  destruct (remote_info !! "issue_tracker_url") as [r|]; [|discriminate].
  cbn in H. unfold py_ne in *. injection H as <-.
  case_bool_decide as Hd; rewrite Hr; cbn.
  - rewrite bool_decide_eq_false_2; [reflexivity | tauto].
  - rewrite bool_decide_eq_false_2; [reflexivity | tauto].
Qed.

Lemma staged_maturity_settled w remote_info remote_info' o :
  staged_maturity w remote_info = Ok o →
  remote_info' !! "maturity"
  = match o with Some v => Some v | None => remote_info !! "maturity" end →
  staged_maturity w remote_info' = Ok None.
Proof.
  unfold staged_maturity. intros H Hr.
  destruct (current_branch_stable w) as [stable|]; [|discriminate].
  cbn in *. injection H as <-.
  destruct stable; [|reflexivity]. cbn in *.
  unfold maturity_outdated in *.
  destruct (remote_info !! "maturity") as [m|]; rewrite Hr.
  - destruct (py_ne m (PStr "Stable")) eqn:E; [reflexivity|].
    rewrite E. reflexivity.
  - reflexivity.
Qed.

(** X5. Once the entries of a payload have been written to the remote
    record, a second run of the reconciler finds everything up to date
    except the url: it returns the [vcs_url] entry alone when the recipe
    declares a url, and nothing otherwise. *)
Theorem second_run_stages_url_only w recipe_info remote_info upd :
  _update_package_info w recipe_info remote_info = Ok upd →
  _update_package_info w recipe_info (apply_update upd remote_info)
  = Ok (restaged recipe_info).
Proof.
  intros H.
  apply update_package_info_Ok in H as (s & Hs & ->).
  destruct Hs as (H1 & H2 & H3 & H4 & H5 & H6 & H7).
  destruct (payload_lookup s) as (E1 & E2 & E3 & E4 & E5 & E6 & E7).
  set (remote_info' := apply_update (payload s) remote_info).
  apply update_package_info_Ok.
  exists (mk_staging None None None (st_vcs_url s) None None None).
  split.
  - unfold decided. cbn [st_desc st_labels st_licenses st_vcs_url
      st_issue_tracker_url st_maturity st_website_url].
    split; [|split; [|split; [|split; [|split; [|split]]]]].
    + eapply staged_if_differs_settled; [exact H1|].
      unfold remote_info'. rewrite apply_update_lookup, E1. reflexivity.
    + eapply staged_if_differs_settled; [exact H2|].
      unfold remote_info'. rewrite apply_update_lookup, E2. reflexivity.
    + eapply staged_licenses_settled; [exact H3|].
      unfold remote_info'. rewrite apply_update_lookup, E3. reflexivity.
    + exact H4.
    + eapply staged_issue_tracker_settled; [exact H5|].
      unfold remote_info'. rewrite apply_update_lookup, E5. reflexivity.
    + eapply staged_maturity_settled; [exact H6|].
      unfold remote_info'. rewrite apply_update_lookup, E6. reflexivity.
    + eapply staged_if_differs_settled; [exact H7|].
      unfold remote_info'. rewrite apply_update_lookup, E7. reflexivity.
  - unfold restaged, staged_vcs_url, getitem in *.
    destruct (recipe_info !! "url") as [u|]; [|discriminate].
    cbn in H4. injection H4 as <-.
    destruct (truthy u); reflexivity.
Qed.

Lemma second_run_stages_url_only_witness :
  _update_package_info (offline_world travis_on_master git_on_develop)
    sample_recipe_info
    (apply_update
       [("desc", PStr "new"); ("labels", PList ["a"; "b"]);
        ("vcs_url", PStr "https://x/y");
        ("issue_tracker_url", PStr "https://x/community/issues");
        ("maturity", PStr "Stable"); ("website_url", PStr "https://x")]
       sample_remote_info)
  = Ok (restaged sample_recipe_info).
Proof.
  apply (second_run_stages_url_only
           (offline_world travis_on_master git_on_develop)).
  vm_compute. reflexivity.
Defined.

(** ** The address of the issue tracker *)

Lemma app_empty_r s : s +:+ "" = s.
Proof. induction s as [|c s IH]; [reflexivity|]. rewrite app_cons, IH. reflexivity. Qed.

Lemma app_assoc' a b c : (a +:+ b) +:+ c = a +:+ (b +:+ c).
Proof.
  induction a as [|x a IH]; [reflexivity|]. rewrite !app_cons, IH. reflexivity.
Qed.

Lemma length_app' a b :
  String.length (a +:+ b) = (String.length a + String.length b)%nat.
Proof.
  induction a as [|x a IH]; [reflexivity|]. rewrite app_cons. cbn.
  rewrite IH. reflexivity.
Qed.

Lemma py_rfind_range s c : -1 <= py_rfind s c < py_len s.
Proof.
  unfold py_len. induction s as [|a s IH]; cbn [py_rfind String.length].
  - lia.
  - destruct (0 <=? py_rfind s c) eqn:E.
    + apply Z.leb_le in E. lia.
    + destruct (Ascii.eqb a c); lia.
Qed.

Lemma py_rfind_absent s c : has_char c s = false → py_rfind s c = -1.
Proof.
  induction s as [|a s IH]; cbn; [reflexivity|].
  intros H. apply orb_false_iff in H as [Ha Hs].
  rewrite (IH Hs), Ha. reflexivity.
Qed.

(** The last occurrence: after it the character does not occur again. *)
Lemma py_rfind_last base c rest :
  has_char c rest = false →
  py_rfind (base +:+ String c rest) c = py_len base.
Proof.
  intros H. unfold py_len. induction base as [|a base IH].
  - change ("" +:+ String c rest) with (String c rest).
    cbn [py_rfind String.length].
    rewrite (py_rfind_absent _ _ H), Ascii.eqb_refl. reflexivity.
  - rewrite app_cons. cbn [py_rfind String.length]. rewrite IH.
    destruct (0 <=? Z.of_nat (String.length base)) eqn:E.
    + lia.
    + apply Z.leb_gt in E. lia.
Qed.

Lemma str_take_app base rest :
  str_take (String.length base) (base +:+ rest) = base.
Proof.
  induction base as [|a base IH].
  - destruct rest; reflexivity.
  - rewrite app_cons. cbn. rewrite IH. reflexivity.
Qed.

Lemma py_slice_to_prefix base rest :
  py_slice_to (base +:+ rest) (py_len base) = base.
Proof.
  unfold py_slice_to, py_len.
  destruct (Z.of_nat (String.length base) <? 0) eqn:E.
  - apply Z.ltb_lt in E. lia.
  - rewrite Nat2Z.id. apply str_take_app.
Qed.

Lemma py_slice_to_drop_last body c :
  py_slice_to (body +:+ str1 c) (-1) = body.
Proof.
  unfold py_slice_to, py_len. cbn [Z.ltb Z.compare].
  rewrite length_app'. cbn [String.length str1].
  replace (Z.max 0 (Z.of_nat (String.length body + 1) + -1))
    with (Z.of_nat (String.length body)) by lia.
  rewrite Nat2Z.id. apply str_take_app.
Qed.

Lemma has_char_app c a b :
  has_char c (a +:+ b) = has_char c a || has_char c b.
Proof.
  induction a as [|x a IH]; [reflexivity|]. rewrite app_cons. cbn.
  rewrite IH. apply orb_assoc.
Qed.

Lemma tracker_staged_value w recipe_info remote_info upd t :
  _update_package_info w recipe_info remote_info = Ok upd →
  issue_tracker w recipe_info = Ok t →
  t ≠ "" →
  ∃ r, remote_info !! "issue_tracker_url" = Some r
       ∧ dict_get upd "issue_tracker_url"
         = if decide (r = PStr t) then None else Some (PStr t).
Proof.
  intros H Ht Hne.
  apply update_package_info_Ok in H as (s & Hs & ->).
  destruct Hs as (_ & _ & _ & _ & H5 & _).
  destruct (payload_lookup s) as (_ & _ & _ & _ & -> & _).
  unfold staged_issue_tracker, getitem in H5. rewrite Ht in H5. cbn in H5.
  destruct (String.eqb_spec t "") as [->|_]; [contradiction|]. cbn in H5.
  destruct (remote_info !! "issue_tracker_url") as [r|]; [|discriminate].
  exists r. split; [reflexivity|]. cbn in H5. injection H5 as <-.
  unfold py_ne. destruct (decide (r = PStr t)) as [->|Hd].
  - rewrite bool_decide_eq_false_2; [reflexivity | tauto].
  - rewrite bool_decide_eq_true_2; [reflexivity | assumption].
Qed.

Lemma tracker_suffix_nonempty base : base +:+ "/community/issues" ≠ "".
Proof. destruct base; discriminate. Qed.

(** X6. With no override, the issue tracker of a recipe whose url has a
    slash is the url without what follows its last slash, and without that
    slash, followed by /community/issues; that address is staged unless
    the remote record already holds it. *)
Theorem issue_tracker_drops_last_segment
    w recipe_info remote_info upd base segment :
  environ w !! "BINTRAY_ISSUE_TRACKER_URL" = None →
  recipe_info !! "url" = Some (PStr (base +:+ String "/" segment)) →
  has_char "/" segment = false →
  _update_package_info w recipe_info remote_info = Ok upd →
  issue_tracker w recipe_info = Ok (base +:+ "/community/issues")
  ∧ ∃ r, remote_info !! "issue_tracker_url" = Some r
         ∧ dict_get upd "issue_tracker_url"
           = if decide (r = PStr (base +:+ "/community/issues")) then None
             else Some (PStr (base +:+ "/community/issues")).
Proof.
  intros Henv Hu Hseg H.
  assert (issue_tracker w recipe_info = Ok (base +:+ "/community/issues"))
    as Ht.
  { unfold issue_tracker, getitem. rewrite Hu, Henv. cbn.
    assert (String.eqb (base +:+ String "/" segment) "" = false) as ->.
    { destruct base; reflexivity. }
    cbn. rewrite (py_rfind_last _ _ _ Hseg), py_slice_to_prefix. reflexivity. }
  split; [exact Ht|].
  exact (tracker_staged_value _ _ _ _ _ H Ht (tracker_suffix_nonempty base)).
Qed.

Lemma issue_tracker_drops_last_segment_witness :
  issue_tracker (offline_world ∅ git_on_develop) sample_recipe_info
  = Ok ("https://x" +:+ "/community/issues")
  ∧ ∃ r, sample_remote_info !! "issue_tracker_url" = Some r
         ∧ dict_get sample_payload "issue_tracker_url"
           = if decide (r = PStr ("https://x" +:+ "/community/issues"))
             then None
             else Some (PStr ("https://x" +:+ "/community/issues")).
Proof.
  apply (issue_tracker_drops_last_segment (offline_world ∅ git_on_develop)
           sample_recipe_info sample_remote_info sample_payload
           "https://x" "y").
  - reflexivity.
  - vm_compute. reflexivity.
  - reflexivity.
  - vm_compute. reflexivity.
Defined.

(** X7. With no override, a url without any slash loses its last
    character: the issue tracker is the rest of the url followed by
    /community/issues, and is staged unless the remote record already
    holds it. *)
Theorem issue_tracker_without_slash w recipe_info remote_info upd body c :
  environ w !! "BINTRAY_ISSUE_TRACKER_URL" = None →
  recipe_info !! "url" = Some (PStr (body +:+ str1 c)) →
  has_char "/" (body +:+ str1 c) = false →
  _update_package_info w recipe_info remote_info = Ok upd →
  issue_tracker w recipe_info = Ok (body +:+ "/community/issues")
  ∧ ∃ r, remote_info !! "issue_tracker_url" = Some r
         ∧ dict_get upd "issue_tracker_url"
           = if decide (r = PStr (body +:+ "/community/issues")) then None
             else Some (PStr (body +:+ "/community/issues")).
Proof.
  intros Henv Hu Hno H.
  assert (issue_tracker w recipe_info = Ok (body +:+ "/community/issues"))
    as Ht.
  { unfold issue_tracker, getitem. rewrite Hu, Henv. cbn.
    assert (String.eqb (body +:+ str1 c) "" = false) as ->.
    { destruct body; reflexivity. }
    cbn. rewrite (py_rfind_absent _ _ Hno), py_slice_to_drop_last.
    reflexivity. }
  split; [exact Ht|].
  exact (tracker_staged_value _ _ _ _ _ H Ht (tracker_suffix_nonempty body)).
Qed.

Lemma issue_tracker_without_slash_witness :
  issue_tracker (offline_world ∅ git_on_develop)
    (<["url" := PStr "nourl"]> sample_recipe_info)
  = Ok ("nour" +:+ "/community/issues")
  ∧ ∃ r, sample_remote_info !! "issue_tracker_url" = Some r
         ∧ dict_get
             [("desc", PStr "new"); ("labels", PList ["a"; "b"]);
              ("vcs_url", PStr "nourl");
              ("issue_tracker_url", PStr "nour/community/issues");
              ("website_url", PStr "https://x")] "issue_tracker_url"
           = if decide (r = PStr ("nour" +:+ "/community/issues")) then None
             else Some (PStr ("nour" +:+ "/community/issues")).
Proof.
  apply (issue_tracker_without_slash (offline_world ∅ git_on_develop)
           (<["url" := PStr "nourl"]> sample_recipe_info) sample_remote_info
           _ "nour" "l"%char).
  - reflexivity.
  - vm_compute. reflexivity.
  - reflexivity.
  - vm_compute. reflexivity.
Defined.

(** X8. When [BINTRAY_ISSUE_TRACKER_URL] is set, the issue tracker is its
    value whatever the recipe's url; set to the empty text it turns the
    field off: nothing is staged under [issue_tracker_url]. *)
Theorem tracker_override_wins w recipe_info remote_info upd t :
  environ w !! "BINTRAY_ISSUE_TRACKER_URL" = Some t →
  _update_package_info w recipe_info remote_info = Ok upd →
  issue_tracker w recipe_info = Ok t
  ∧ (t = "" → dict_get upd "issue_tracker_url" = None)
  ∧ (∀ v, dict_get upd "issue_tracker_url" = Some v → v = PStr t).
Proof.
  intros Henv H.
  apply update_package_info_Ok in H as (s & Hs & ->).
  destruct Hs as (_ & _ & _ & _ & H5 & _).
  destruct (payload_lookup s) as (_ & _ & _ & _ & -> & _).
  unfold staged_issue_tracker in H5.
  apply bind_Ok_inv in H5 as (t' & Ht' & H5).
  assert (t' = t) as ->.
  { unfold issue_tracker in Ht'.
    apply bind_Ok_inv in Ht' as (u & _ & Ht').
    apply bind_Ok_inv in Ht' as (d & _ & Ht').
    rewrite Henv in Ht'. cbn in Ht'. congruence. }
  split; [assumption|]. split.
  - intros ->. cbn in H5. congruence.
  - intros v Hv. rewrite Hv in H5.
    destruct (negb (String.eqb t "")); [|discriminate].
    apply bind_Ok_inv in H5 as (r & _ & H5).
    destruct (py_ne r (PStr t)); congruence.
Qed.

Lemma tracker_override_wins_witness :
  issue_tracker (offline_world tracker_override git_on_develop)
    sample_recipe_info = Ok "https://issues.example.org"
  ∧ ("https://issues.example.org" = "" →
     dict_get
       [("desc", PStr "new"); ("labels", PList ["a"; "b"]);
        ("vcs_url", PStr "https://x/y");
        ("issue_tracker_url", PStr "https://issues.example.org");
        ("website_url", PStr "https://x")] "issue_tracker_url" = None)
  ∧ (∀ v,
       dict_get
         [("desc", PStr "new"); ("labels", PList ["a"; "b"]);
          ("vcs_url", PStr "https://x/y");
          ("issue_tracker_url", PStr "https://issues.example.org");
          ("website_url", PStr "https://x")] "issue_tracker_url" = Some v →
       v = PStr "https://issues.example.org").
Proof.
  apply (tracker_override_wins (offline_world tracker_override git_on_develop)
           sample_recipe_info sample_remote_info).
  - reflexivity.
  - vm_compute. reflexivity.
Defined.

(** ** Branches *)

Lemma stable_loop_needs_branch w branch patterns :
  stable_loop w branch patterns = Ok true → env_truthy branch = true.
Proof.
  induction patterns as [|p ps IH]; cbn [stable_loop]; [discriminate|].
  intros H. apply bind_Ok_inv in H as (t & _ & H).
  destruct (env_truthy branch); [reflexivity|]. cbn in H. auto.
Qed.

Lemma classified_stable_needs_branch w branch :
  _is_stable_branch w branch = Ok true → env_truthy branch = true.
Proof. apply stable_loop_needs_branch. Qed.

(** X9. When no branch is known - [_get_branch] gives [None], as after a
    failure of git, or an empty name - the branch is never classified
    stable, whatever the patterns, and the reconciler stages no
    [maturity]. *)
Theorem unknown_branch_stages_no_maturity w recipe_info remote_info upd branch :
  _get_branch w = Ok branch →
  env_truthy branch = false →
  _update_package_info w recipe_info remote_info = Ok upd →
  _is_stable_branch w branch = Ok false
  ∧ dict_get upd "maturity" = None.
Proof.
  intros Hb Hnone H.
  apply update_package_info_Ok in H as (s & Hs & ->).
  destruct Hs as (_ & _ & _ & _ & _ & H6 & _).
  destruct (payload_lookup s) as (_ & _ & _ & _ & _ & -> & _).
  unfold staged_maturity, current_branch_stable in H6.
  rewrite Hb, bind_Ok in H6.
  apply bind_Ok_inv in H6 as (stable & Hst & H6).
  destruct stable.
  - apply classified_stable_needs_branch in Hst. congruence.
  - split; [assumption|]. cbn in H6. congruence.
Qed.

Lemma unknown_branch_stages_no_maturity_witness :
  _is_stable_branch (offline_world ∅ (raise OtherException "git: not found"))
    None = Ok false
  ∧ dict_get sample_payload "maturity" = None.
Proof.
  apply (unknown_branch_stages_no_maturity
           (offline_world ∅ (raise OtherException "git: not found"))
           sample_recipe_info sample_remote_info sample_payload None).
  - reflexivity.
  - reflexivity.
  - vm_compute. reflexivity.
Defined.

Lemma override_classification w pattern branch :
  environ w !! "CONAN_STABLE_BRANCH_PATTERN" = Some pattern →
  pattern ≠ "" →
  _is_stable_branch w branch
  = (test ← compile_test w pattern;
     Ok (env_truthy branch && (test : string → bool) (default "" branch))).
Proof.
  intros Henv Hne. unfold _is_stable_branch. rewrite Henv. cbn.
  destruct (String.eqb_spec pattern "") as [->|_]; [contradiction|].
  cbn. destruct (compile_test w pattern) as [test|e]; [|reflexivity].
  cbn. destruct (_ && _); reflexivity.
Qed.

(** X10. An override pattern replaces the three default patterns: the
    classification is the test of that single pattern on a branch that is
    known and not empty.  The pattern is compiled before the branch is
    looked at, so an override that does not compile makes the classifier
    raise for every branch, an absent one included, and the reconciler
    return no payload for any recipe and remote record. *)
Theorem override_replaces_defaults w pattern :
  environ w !! "CONAN_STABLE_BRANCH_PATTERN" = Some pattern →
  pattern ≠ "" →
  (∀ test branch, compile_test w pattern = Ok test →
     _is_stable_branch w branch
     = Ok (env_truthy branch && test (default "" branch)))
  ∧ (∀ e, compile_test w pattern = Raise e →
       (∀ branch, _is_stable_branch w branch = Raise e)
       ∧ ∀ recipe_info remote_info,
           returns (_update_package_info w recipe_info remote_info) = false).
Proof.
  intros Henv Hne. split.
  - intros test branch Ht.
    rewrite (override_classification _ _ _ Henv Hne), Ht. reflexivity.
  - intros e He.
    assert (Hall : ∀ branch, _is_stable_branch w branch = Raise e).
    { intros branch.
      rewrite (override_classification _ _ _ Henv Hne), He. reflexivity. }
    split; [exact Hall|]. intros recipe_info remote_info.
    destruct (_update_package_info w recipe_info remote_info) as [upd|e']
      eqn:E; [|reflexivity].
    apply update_package_info_Ok in E as (s & Hs & _).
    destruct Hs as (_ & _ & _ & _ & _ & H6 & _).
    unfold staged_maturity, current_branch_stable in H6.
    apply bind_Ok_inv in H6 as (stable & Hst & _).
    apply bind_Ok_inv in Hst as (branch & _ & Hst).
    rewrite Hall in Hst. discriminate.
Qed.

Lemma override_replaces_defaults_witness :
  (∀ test branch,
     compile_test
       (offline_world {["CONAN_STABLE_BRANCH_PATTERN" := "v[0-9]+"]}
          git_on_develop) "v[0-9]+" = Ok test →
     _is_stable_branch
       (offline_world {["CONAN_STABLE_BRANCH_PATTERN" := "v[0-9]+"]}
          git_on_develop) branch
     = Ok (env_truthy branch && test (default "" branch)))
  ∧ (∀ e,
       compile_test
         (offline_world {["CONAN_STABLE_BRANCH_PATTERN" := "v[0-9]+"]}
            git_on_develop) "v[0-9]+" = Raise e →
       (∀ branch,
          _is_stable_branch
            (offline_world {["CONAN_STABLE_BRANCH_PATTERN" := "v[0-9]+"]}
               git_on_develop) branch = Raise e)
       ∧ ∀ recipe_info remote_info,
           returns
             (_update_package_info
                (offline_world {["CONAN_STABLE_BRANCH_PATTERN" := "v[0-9]+"]}
                   git_on_develop) recipe_info remote_info) = false).
Proof.
  apply (override_replaces_defaults
           (offline_world {["CONAN_STABLE_BRANCH_PATTERN" := "v[0-9]+"]}
              git_on_develop) "v[0-9]+").
  - reflexivity.
  - discriminate.
Defined.

(** ** Reading the listing of git *)

Lemma py_lstrip_first s :
  match py_lstrip s with
  | "" => True
  | String c _ => is_space c = false
  end.
Proof.
  induction s as [|c s IH]; cbn; [exact I|].
  destruct (is_space c) eqn:E; [exact IH | exact E].
Qed.

Lemma py_lstrip_id c s : is_space c = false → py_lstrip (String c s) = String c s.
Proof. intros H. cbn. rewrite H. reflexivity. Qed.

Lemma py_rstrip_cons c s :
  py_rstrip (String c s)
  = match py_rstrip s with
    | "" => if is_space c then "" else str1 c
    | r => String c r
    end.
Proof. reflexivity. Qed.

Lemma py_rstrip_idem s : py_rstrip (py_rstrip s) = py_rstrip s.
Proof.
  induction s as [|c s IH]; [reflexivity|].
  rewrite py_rstrip_cons.
  destruct (py_rstrip s) as [|d r] eqn:E.
  - destruct (is_space c) eqn:Ec; [reflexivity|].
    cbn. rewrite Ec. reflexivity.
  - rewrite py_rstrip_cons, IH. reflexivity.
Qed.

Lemma py_rstrip_keeps_first c s :
  is_space c = false → ∃ t, py_rstrip (String c s) = String c t.
Proof.
  intros H. rewrite py_rstrip_cons.
  destruct (py_rstrip s); [rewrite H|]; eauto.
Qed.

Lemma py_strip_idem s : py_strip (py_strip s) = py_strip s.
Proof.
  unfold py_strip.
  pose proof (py_lstrip_first s) as Hf.
  destruct (py_lstrip s) as [|c t]; [reflexivity|].
  destruct (py_rstrip_keeps_first c t Hf) as [u Hu].
  rewrite Hu, (py_lstrip_id _ _ Hf), <- Hu. apply py_rstrip_idem.
Qed.

Lemma git_current_branch_Some lines b :
  git_current_branch lines = Some b →
  ∃ line, line ∈ lines
    ∧ py_startswith (py_strip line) "*" = true
    ∧ py_contains " (HEAD detached" (py_strip line) = false
    ∧ b = py_strip (py_remove_first "*" (py_strip line)).
Proof.
  induction lines as [|l ls IH]; cbn; [discriminate|].
  destruct (py_startswith (py_strip l) "*") eqn:E1; cbn.
  - destruct (py_contains " (HEAD detached" (py_strip l)) eqn:E2; cbn.
    + intros H. destruct (IH H) as (line & Hin & ?).
      exists line. split; [apply list_elem_of_further|]; assumption.
    + intros [= <-]. exists l. split; [apply list_elem_of_here|]. auto.
  - intros H. destruct (IH H) as (line & Hin & ?).
    exists line. split; [apply list_elem_of_further|]; assumption.
Qed.

(** X11. When no CI system announces a branch, a branch that [_get_branch]
    returns comes from a line of git's output that starts with an asterisk
    and is not the mark of a detached head; it is that line without the
    asterisk, and has no white space at either end. *)
Theorem git_branch_is_stripped w out b :
  ci_branch (environ w) ci_manager = None →
  git_branch_cmd w = Ok out →
  _get_branch w = Ok (Some b) →
  py_strip b = b
  ∧ ∃ line, line ∈ py_splitlines out
      ∧ py_startswith (py_strip line) "*" = true
      ∧ py_contains " (HEAD detached" (py_strip line) = false
      ∧ b = py_strip (py_remove_first "*" (py_strip line)).
Proof.
  intros Hci Hgit H. unfold _get_branch in H. rewrite Hci, Hgit in H.
  injection H as H.
  destruct (git_current_branch_Some _ _ H) as (line & Hin & H1 & H2 & ->).
  split; [apply py_strip_idem|]. eauto.
Qed.

Lemma git_branch_is_stripped_witness :
  py_strip "develop" = "develop"
  ∧ ∃ line,
      line ∈ py_splitlines ("* develop" +:+ str1 LF +:+ "  master" +:+ str1 LF)
      ∧ py_startswith (py_strip line) "*" = true
      ∧ py_contains " (HEAD detached" (py_strip line) = false
      ∧ "develop" = py_strip (py_remove_first "*" (py_strip line)).
Proof.
  apply (git_branch_is_stripped (offline_world ∅ git_on_develop)).
  - reflexivity.
  - reflexivity.
  - vm_compute. reflexivity.
Defined.

Lemma rev_app_rev_app l a b :
  String.rev_app (String.rev_app l a) b = String.rev_app a (l +:+ b).
Proof.
  revert a b. induction l as [|c l IH]; intros a b; [reflexivity|].
  cbn [String.rev_app]. rewrite IH. rewrite app_cons. reflexivity.
Qed.

Lemma rev_rev_app l : String.rev (String.rev_app l "") = l.
Proof.
  unfold String.rev. rewrite rev_app_rev_app. cbn. apply app_empty_r.
Qed.

Lemma plain_chars_app a b :
  plain_chars (a +:+ b) = plain_chars a && plain_chars b.
Proof.
  induction a as [|c a IH]; [reflexivity|]. rewrite app_cons. cbn.
  rewrite IH. apply andb_assoc.
Qed.

Lemma is_linebreak_space c : is_space c = false → is_linebreak c = false.
Proof.
  unfold is_space, is_linebreak. generalize (nat_of_ascii c). intros n.
  rewrite !orb_false_iff, !andb_false_iff, !Nat.leb_gt, !Nat.eqb_neq. lia.
Qed.

(** Reading one line: [l] has no line boundary and a line feed ends it. *)
Lemma splitlines_go_line l acc rest :
  (∀ c, has_char c l = true → is_linebreak c = false) →
  splitlines_go false acc (l +:+ String LF rest)
  = String.rev (String.rev_app l (default "" acc))
    :: splitlines_go false None rest.
Proof.
  revert acc. induction l as [|c l IH]; intros acc Hl.
  - reflexivity.
  - rewrite app_cons. cbn [splitlines_go andb].
    rewrite (Hl c) by (cbn; rewrite Ascii.eqb_refl; reflexivity).
    rewrite IH; [reflexivity|].
    intros d Hd. apply Hl. cbn. rewrite Hd. apply orb_true_r.
Qed.

Lemma plain_no_linebreak n c :
  plain_chars n = true → has_char c n = true → is_linebreak c = false.
Proof.
  induction n as [|a n IH]; cbn; [discriminate|].
  intros Hp Hc. apply andb_true_iff in Hp as [Hp Hn].
  apply andb_true_iff in Hp as [Hs _].
  apply orb_true_iff in Hc as [Hc|Hc]; [|auto].
  apply Ascii.eqb_eq in Hc. subst a.
  apply is_linebreak_space. destruct (is_space c); [discriminate | reflexivity].
Qed.

Lemma splitlines_listing_line current n rest :
  plain_chars n = true →
  splitlines_go false None (listing_line current n +:+ rest)
  = ((if current then "* " else "  ") +:+ n) :: splitlines_go false None rest.
Proof.
  intros Hn. unfold listing_line.
  replace (((if current then "* " else "  ") +:+ n +:+ str1 LF) +:+ rest)
    with (((if current then "* " else "  ") +:+ n) +:+ String LF rest).
  2:{ rewrite !app_assoc'. reflexivity. }
  rewrite splitlines_go_line.
  - cbn [default]. rewrite rev_rev_app. reflexivity.
  - intros c Hc. rewrite has_char_app in Hc.
    apply orb_true_iff in Hc as [Hc|Hc].
    + destruct current; cbn [has_char] in Hc; rewrite orb_false_r in Hc;
        apply orb_true_iff in Hc as [Hc|Hc]; apply Ascii.eqb_eq in Hc;
        subst c; reflexivity.
    + eapply plain_no_linebreak; eassumption.
Qed.

Lemma splitlines_listing_lines names rest :
  Forall branch_name names →
  splitlines_go false None (listing_lines false names +:+ rest)
  = ((String.append "  " <$> names) ++ splitlines_go false None rest)%list.
Proof.
  induction 1 as [|n names [_ Hn] _ IH]; [reflexivity|].
  cbn [listing_lines fmap list_fmap]. rewrite app_assoc'.
  rewrite (splitlines_listing_line false _ _ Hn), IH. reflexivity.
Qed.

Lemma py_rstrip_plain s : plain_chars s = true → py_rstrip s = s.
Proof.
  induction s as [|c s IH]; [reflexivity|]. cbn [plain_chars].
  intros H. apply andb_true_iff in H as [H Hs].
  apply andb_true_iff in H as [Hc _].
  rewrite py_rstrip_cons, (IH Hs).
  destruct s; [|reflexivity].
  destruct (is_space c); [discriminate | reflexivity].
Qed.

Lemma prefix_cons a p c t :
  String.prefix (String a p) (String c t)
  = if ascii_dec a c then String.prefix p t else false.
Proof. reflexivity. Qed.

Lemma plain_first n :
  branch_name n →
  ∃ c t, n = String c t ∧ is_space c = false ∧ c ≠ "*"%char.
Proof.
  intros [Hne Hp]. destruct n as [|c t]; [contradiction|].
  cbn in Hp. apply andb_true_iff in Hp as [Hp _].
  apply andb_true_iff in Hp as [Hs Hstar].
  exists c, t. split; [reflexivity|]. split.
  - destruct (is_space c); [discriminate | reflexivity].
  - intros ->. discriminate.
Qed.

Lemma strip_other_line n : branch_name n → py_strip ("  " +:+ n) = n.
Proof.
  intros Hn. destruct (plain_first n Hn) as (c & t & -> & Hc & _).
  unfold py_strip.
  change (py_lstrip ("  " +:+ String c t)) with (py_lstrip (String c t)).
  rewrite (py_lstrip_id _ _ Hc). apply py_rstrip_plain. apply Hn.
Qed.

Lemma other_line_skipped n :
  branch_name n → py_startswith (py_strip ("  " +:+ n)) "*" = false.
Proof.
  intros Hn. rewrite (strip_other_line _ Hn).
  destruct (plain_first n Hn) as (c & t & -> & _ & Hstar).
  unfold py_startswith. rewrite prefix_cons.
  destruct (ascii_dec "*" c) as [E|_]; [congruence | reflexivity].
Qed.

Lemma strip_current_line n :
  branch_name n → py_strip ("* " +:+ n) = "* " +:+ n.
Proof.
  intros Hn. destruct (plain_first n Hn) as (c & t & E & Hc & _).
  unfold py_strip.
  change ("* " +:+ n) with (String "*" (String " " n)).
  rewrite py_lstrip_id by reflexivity.
  rewrite !py_rstrip_cons, (py_rstrip_plain n) by apply Hn.
  rewrite E. reflexivity.
Qed.

Lemma strip_after_asterisk n : branch_name n → py_strip (String " " n) = n.
Proof.
  intros Hn. destruct (plain_first n Hn) as (c & t & -> & Hc & _).
  unfold py_strip.
  change (py_lstrip (String " " (String c t))) with (py_lstrip (String c t)).
  rewrite (py_lstrip_id _ _ Hc). apply py_rstrip_plain. apply Hn.
Qed.

Lemma no_space_no_match x s :
  plain_chars s = true → py_contains (String " " x) s = false.
Proof.
  induction s as [|c s IH]; [reflexivity|]. cbn [plain_chars py_contains].
  intros H. apply andb_true_iff in H as [H Hs].
  apply andb_true_iff in H as [Hc _].
  rewrite (IH Hs), orb_false_r, prefix_cons.
  destruct (ascii_dec " " c) as [<-|_]; [discriminate | reflexivity].
Qed.

Lemma current_line_not_detached n :
  branch_name n → py_contains " (HEAD detached" ("* " +:+ n) = false.
Proof.
  intros [Hne Hp].
  change ("* " +:+ n) with (String "*" (String " " n)).
  cbn [py_contains].
  rewrite (no_space_no_match _ _ Hp), orb_false_r.
  apply orb_false_iff. split; [reflexivity|].
  change (String.prefix " (HEAD detached" (String " " n))
    with (String.prefix "(HEAD detached" n).
  destruct (String.prefix "(HEAD detached" n) eqn:E; [|reflexivity].
  destruct (prefix_split _ _ E) as [t ->].
  rewrite plain_chars_app in Hp. apply andb_true_iff in Hp as [Hp _].
  vm_compute in Hp. discriminate.
Qed.

Lemma git_current_branch_listing before current rest :
  Forall branch_name before → branch_name current →
  git_current_branch
    ((String.append "  " <$> before) ++ ("* " +:+ current) :: rest)%list
  = Some current.
Proof.
  intros Hb Hc. induction Hb as [|n names Hn _ IH].
  - cbn [fmap list_fmap app git_current_branch].
    rewrite (strip_current_line _ Hc), (current_line_not_detached _ Hc).
    change (py_startswith ("* " +:+ current) "*") with true.
    cbn [andb negb].
    change (py_remove_first "*" ("* " +:+ current)) with (String " " current).
    rewrite (strip_after_asterisk _ Hc). reflexivity.
  - cbn [fmap list_fmap app git_current_branch].
    rewrite (other_line_skipped _ Hn). exact IH.
Qed.

(** X12. When no CI system announces a branch and git prints its listing -
    one branch per line, indented, the current one marked with an asterisk -
    [_get_branch] returns the name of the current branch, wherever it
    stands in the listing. *)
Theorem current_branch_of_listing w before current after :
  ci_branch (environ w) ci_manager = None →
  git_branch_cmd w = Ok (git_listing before current after) →
  Forall branch_name before →
  branch_name current →
  _get_branch w = Ok (Some current).
Proof.
  intros Hci Hgit Hb Hc. unfold _get_branch. rewrite Hci, Hgit.
  unfold git_listing, py_splitlines.
  rewrite (splitlines_listing_lines _ _ Hb).
  rewrite (splitlines_listing_line true _ _ (proj2 Hc)).
  rewrite (git_current_branch_listing _ _ _ Hb Hc). reflexivity.
Qed.

Lemma current_branch_of_listing_witness :
  _get_branch
    (offline_world ∅ (Ok (git_listing ["develop"] "release-2.0" ["master"])))
  = Ok (Some "release-2.0").
Proof.
  apply (current_branch_of_listing
           (offline_world ∅
              (Ok (git_listing ["develop"] "release-2.0" ["master"])))
           ["develop"] "release-2.0" ["master"]).
  - reflexivity.
  - reflexivity.
  - repeat constructor; discriminate.
  - split; [discriminate | reflexivity].
Defined.

(** ** Credentials *)



Lemma env_truthy_Some o : env_truthy o = true ↔ ∃ s, o = Some s ∧ s ≠ "".
Proof.
  destruct o as [s|]; cbn.
  - destruct (String.eqb_spec s "") as [->|Hne]; cbn; split.
    + discriminate.
    + intros (s & [= <-] & H). contradiction.
    + eauto.
    + reflexivity.
  - split; [discriminate|]. intros (s & H & _). discriminate.
Qed.





(** ** Owner and repository of a remote *)

Lemma dot_ok c : Ascii.eqb c LF = false → Re.atom_ok Re.Dot c = true.
Proof. intros H. cbn. rewrite H. reflexivity. Qed.

Lemma has_char_cons_false c a s :
  has_char c (String a s) = false → Ascii.eqb a c = false ∧ has_char c s = false.
Proof. cbn. apply orb_false_iff. Qed.

(** The second group runs to the end of a subject without line feed. *)
Lemma exec_last_group repo pos m st :
  has_char LF repo = false →
  Re.assoc 2 (Re.starts m) = Some st →
  Re.exec [Re.Star Re.Dot; Re.Close 2] repo pos m
  = Some (Re.mk_marks (Re.starts m)
            ((2%nat, (st, (pos + String.length repo)%nat)) :: Re.spans m)).
Proof.
  intros Hlf Hst. revert pos.
  induction repo as [|c r IH]; intros pos; rewrite exec_star_unfold.
  - cbn. rewrite Hst, Nat.add_0_r. reflexivity.
  - apply has_char_cons_false in Hlf as [Hc Hr].
    rewrite (dot_ok _ Hc), (IH Hr). cbn [String.length].
    rewrite Nat.add_succ_r. reflexivity.
Qed.

(** Inside a text without slash the first group cannot end. *)
Lemma exec_first_group_stuck r rest pos m :
  has_char "/" r = false →
  Re.exec (Re.Star Re.Dot :: Re.Close 1 :: Re.One (Re.Lit "/") :: rest) r pos m
  = None.
Proof.
  intros Hs. revert pos.
  assert (Hk : ∀ r pos, has_char "/" r = false →
    Re.exec (Re.Close 1 :: Re.One (Re.Lit "/") :: rest) r pos m = None).
  { intros r0 pos0 H0. cbn [Re.exec].
    destruct (Re.assoc 1 (Re.starts m)); [|reflexivity].
    destruct r0 as [|c r0]; [reflexivity|]. cbn [Re.atom_ok].
    apply has_char_cons_false in H0 as [Hc _].
    rewrite Ascii.eqb_sym, Hc. reflexivity. }
  induction r as [|c r IH]; intros pos; rewrite exec_star_unfold.
  - apply Hk. reflexivity.
  - pose proof Hs as Hs'. apply has_char_cons_false in Hs' as [_ Hr].
    rewrite (IH Hr). destruct (Re.atom_ok Re.Dot c); apply Hk; assumption.
Qed.

(** The first group ends at the last slash. *)
Lemma exec_owner_repo owner repo pos m st :
  has_char LF owner = false →
  has_char LF repo = false →
  has_char "/" repo = false →
  Re.assoc 1 (Re.starts m) = Some st →
  Re.exec (Re.Star Re.Dot :: Re.Close 1 :: Re.One (Re.Lit "/") :: Re.Open 2
           :: Re.Star Re.Dot :: Re.Close 2 :: [])
    (owner +:+ String "/" repo) pos m
  = Some (Re.mk_marks
            ((2%nat, S (pos + String.length owner)) :: Re.starts m)
            ((2%nat, (S (pos + String.length owner),
                      (S (pos + String.length owner) + String.length repo)%nat))
             :: (1%nat, (st, (pos + String.length owner)%nat)) :: Re.spans m)).
Proof.
  intros Ho Hr Hs Hst. revert pos.
  induction owner as [|c o IH]; intros pos; rewrite exec_star_unfold.
  - change ("" +:+ String "/" repo) with (String "/" repo).
    change (Re.atom_ok Re.Dot "/") with true. cbn iota.
    rewrite (exec_first_group_stuck _ _ _ _ Hs).
    cbn [Re.exec]. rewrite Hst. cbn [Re.atom_ok].
    rewrite Ascii.eqb_refl.
    rewrite (exec_last_group repo (S pos) _ (S pos) Hr).
    + cbn [Re.starts Re.spans String.length]. rewrite Nat.add_0_r. reflexivity.
    + cbn [Re.starts]. rewrite assoc_cons. reflexivity.
  - rewrite app_cons.
    apply has_char_cons_false in Ho as [Hc Ho].
    rewrite (dot_ok _ Hc), (IH Ho). cbn [String.length].
    rewrite !Nat.add_succ_r. reflexivity.
Qed.

Lemma substring_skip a s n :
  String.substring (String.length a) n (a +:+ s) = String.substring 0 n s.
Proof. induction a as [|c a IH]; [reflexivity|]. rewrite app_cons. exact IH. Qed.

Lemma substring_take b s :
  String.substring 0 (String.length b) (b +:+ s) = b.
Proof.
  induction b as [|c b IH]; [destruct s; reflexivity|].
  rewrite app_cons. cbn. rewrite IH. reflexivity.
Qed.

Lemma substring_middle a b s :
  String.substring (String.length a) (String.length b) (a +:+ b +:+ s) = b.
Proof. rewrite substring_skip. apply substring_take. Qed.

Lemma compile_bintray_pattern :
  compile_groups bintray_pattern = Ok (host_tokens ++ owner_repo_tokens)%list.
Proof. vm_compute. reflexivity. Qed.

Lemma exec_host (secure : bool) (rest : string) (m : Re.marks) :
  Re.exec (host_tokens ++ owner_repo_tokens)%list
    ((if secure then "https" else "http")
     +:+ "://api.bintray.com/conan/" +:+ rest) 0%nat m
  = Re.exec owner_repo_tokens rest (if secure then 30 else 29)%nat m.
Proof.
  destruct secure.
  - change (Re.exec (host_tokens ++ owner_repo_tokens)%list
              ("https" +:+ "://api.bintray.com/conan/" +:+ rest) 0%nat m)
      with (match Re.exec owner_repo_tokens rest 30%nat m with
            | Some r => Some r
            | None => None
            end).
    destruct (Re.exec owner_repo_tokens rest 30%nat m); reflexivity.
  - reflexivity.
Qed.

Lemma host_length (secure : bool) :
  String.length ((if secure then "https" else "http")
                 +:+ "://api.bintray.com/conan/")
  = (if secure then 30 else 29)%nat.
Proof. destruct secure; reflexivity. Qed.

(** X15. The address of a Conan repository on the API host, with either
    scheme, is split at its last slash: what follows it is the repository
    and what stands between /conan/ and it is the owner, slashes
    included. *)
Theorem extract_user_repo_splits_at_last_slash
    (n : string) (secure : bool) (owner repo : string) :
  has_char LF owner = false →
  has_char LF repo = false →
  has_char "/" repo = false →
  _extract_user_repo (mk_Remote n (conan_address secure owner repo))
  = Ok (owner, repo).
Proof.
  intros Ho Hr Hs. unfold _extract_user_repo.
  rewrite compile_bintray_pattern, bind_Ok. cbn [url].
  set (host := (if secure then "https" else "http")
               +:+ "://api.bintray.com/conan/").
  set (N := (if secure then 30 else 29)%nat).
  assert (Hlen : String.length host = N) by apply host_length.
  assert (Hsubj : conan_address secure owner repo
                  = host +:+ owner +:+ String "/" repo).
  { unfold conan_address, host. rewrite app_assoc'. reflexivity. }
  unfold Re.match_.
  assert (Hexec :
    Re.exec (host_tokens ++ owner_repo_tokens)%list
      (conan_address secure owner repo) 0%nat (Re.mk_marks [] [])
    = Some (Re.mk_marks
              [(2%nat, S (N + String.length owner)); (1%nat, N)]
              [(2%nat, (S (N + String.length owner),
                        (S (N + String.length owner) + String.length repo)%nat));
               (1%nat, (N, (N + String.length owner)%nat))])).
  { unfold conan_address.
    rewrite (exec_host secure (owner +:+ String "/" repo)).
    fold N. unfold owner_repo_tokens. cbn [Re.exec].
    rewrite (exec_owner_repo owner repo N _ N Ho Hr Hs); [reflexivity|].
    cbn [Re.starts]. rewrite assoc_cons. reflexivity. }
  rewrite Hexec. cbn [mbind option_bind].
  unfold Re.group. cbn [Re.groups Re.subject Re.spans].
  rewrite !assoc_cons. cbn [Nat.eqb mbind option_bind].
  replace (N + String.length owner - N)%nat with (String.length owner) by lia.
  replace (S (N + String.length owner) + String.length repo
           - S (N + String.length owner))%nat
    with (String.length repo) by lia.
  rewrite Hsubj.
  assert (H1 : String.substring N (String.length owner)
                 (host +:+ owner +:+ String "/" repo) = owner).
  { rewrite <- Hlen. apply substring_middle. }
  assert (H2 : String.substring (S (N + String.length owner))
                 (String.length repo)
                 (host +:+ owner +:+ String "/" repo) = repo).
  { replace (host +:+ owner +:+ String "/" repo)
      with ((host +:+ owner +:+ "/") +:+ repo +:+ "").
    2:{ rewrite app_empty_r, !app_assoc'. reflexivity. }
    replace (S (N + String.length owner))
      with (String.length (host +:+ owner +:+ "/")).
    2:{ rewrite !length_app', Hlen. cbn. lia. }
    apply substring_middle. }
  rewrite H1, H2. reflexivity.
Qed.

Lemma extract_user_repo_splits_at_last_slash_witness :
  _extract_user_repo
    (mk_Remote "acme" (conan_address true "acme/team" "public-conan"))
  = Ok ("acme/team", "public-conan").
Proof.
  apply (extract_user_repo_splits_at_last_slash "acme" true "acme/team"
           "public-conan"); reflexivity.
Defined.

(** ** The address of a package *)

Lemma format_package a b : py_format "{}%3A{}" [a; b] = Ok (a +:+ "%3A" +:+ b).
Proof.
  change (py_format "{}%3A{}" [a; b]) with (Ok (a +:+ "%3A" +:+ (b +:+ ""))).
  rewrite app_empty_r. reflexivity.
Qed.

Lemma format_package_url a b c d :
  py_format "{}/packages/{}/{}/{}" [a; b; c; d]
  = Ok (a +:+ "/packages/" +:+ b +:+ "/" +:+ c +:+ "/" +:+ d).
Proof.
  change (py_format "{}/packages/{}/{}/{}" [a; b; c; d])
    with (Ok (a +:+ "/packages/" +:+ b +:+ "/" +:+ c +:+ "/" +:+ (d +:+ ""))).
  rewrite app_empty_r. reflexivity.
Qed.

Lemma package_url_Ok w remote reference u :
  _get_bintray_package_url w remote reference = Ok u →
  ∃ user repo,
    _extract_user_repo remote = Ok (user, repo)
    ∧ u = api_host w +:+ "/packages/" +:+ user +:+ "/" +:+ repo +:+ "/"
          +:+ ref_name reference +:+ "%3A" +:+ ref_user reference.
Proof.
  unfold _get_bintray_package_url. intros H.
  apply bind_Ok_inv in H as ([user repo] & He & H).
  rewrite format_package, bind_Ok, format_package_url in H.
  injection H as <-. exists user, repo. split; [assumption|]. reflexivity.
Qed.

(** X16. The address of a package is the API host, then /packages/, the
    owner and the repository of the remote, and the name and user of the
    reference joined by %3A, these two as they are.  With no
    [BINTRAY_API_URL] the host is Bintray's, so the address has https in
    it and the write request is not refused for its address. *)
Theorem package_url_shape w remote reference u :
  _get_bintray_package_url w remote reference = Ok u →
  (∃ user repo,
     _extract_user_repo remote = Ok (user, repo)
     ∧ u = api_host w +:+ "/packages/" +:+ user +:+ "/" +:+ repo +:+ "/"
           +:+ ref_name reference +:+ "%3A" +:+ ref_user reference)
  ∧ (environ w !! "BINTRAY_API_URL" = None →
     py_startswith u "https://api.bintray.com/packages/" = true
     ∧ py_contains "https" u = true).
Proof.
  intros H. destruct (package_url_Ok _ _ _ _ H) as (user & repo & He & ->).
  split; [eauto|]. unfold api_host. intros ->. cbn [default].
  split.
  - unfold py_startswith. destruct user; reflexivity.
  - reflexivity.
Qed.

Lemma package_url_shape_witness :
  (∃ user repo,
     _extract_user_repo acme_remote = Ok (user, repo)
     ∧ plain_http_package_url
       = api_host plain_http_world +:+ "/packages/" +:+ user +:+ "/" +:+ repo
         +:+ "/" +:+ ref_name httpserver_reference +:+ "%3A"
         +:+ ref_user httpserver_reference)
  ∧ (environ plain_http_world !! "BINTRAY_API_URL" = None →
     py_startswith plain_http_package_url "https://api.bintray.com/packages/"
     = true
     ∧ py_contains "https" plain_http_package_url = true).
Proof.
  apply (package_url_shape plain_http_world acme_remote httpserver_reference).
  vm_compute. reflexivity.
Defined.

(** ** The requests of the hook *)

Lemma requests_app tr1 tr2 :
  requests (tr1 ++ tr2)%list = (requests tr1 ++ requests tr2)%list.
Proof. unfold requests. apply List.filter_app. Qed.

Lemma format_outdated x :
  py_format "Bintray is outdated. Updating Bintray package info: {}" [x]
  = Ok ("Bintray is outdated. Updating Bintray package info: " +:+ x).
Proof.
  change (py_format "Bintray is outdated. Updating Bintray package info: {}" [x])
    with (Ok ("Bintray is outdated. Updating Bintray package info: "
              +:+ (x +:+ ""))).
  rewrite app_empty_r. reflexivity.
Qed.

Lemma format_patch_failed x :
  py_format "Could not patch package info: {}" [x]
  = Ok ("Could not patch package info: " +:+ x).
Proof.
  change (py_format "Could not patch package info: {}" [x])
    with (Ok ("Could not patch package info: " +:+ (x +:+ ""))).
  rewrite app_empty_r. reflexivity.
Qed.

Lemma format_get_failed x y :
  py_format "Could not request package info: {} ({})" [x; y]
  = Ok ("Could not request package info: " +:+ x +:+ " (" +:+ y +:+ ")").
Proof. reflexivity. Qed.

Ltac unfold_hook :=
  unfold post_upload_recipe, try_except, upload_sequence,
    _get_package_info_from_bintray, _get_package_info_from_recipe,
    _patch_bintray_package_info;
  unfold mbind, M_bind, mret, M_ret, lift, emit.

Ltac caught :=
  unfold raise; cbn [exn_cls is_Exception];
  repeat match goal with
  | |- context [is_Exception (exn_cls ?e)] => destruct (is_Exception (exn_cls e))
  end.

Ltac count_requests :=
  cbn [snd]; rewrite ?requests_app; cbn [requests List.filter is_request];
  rewrite ?app_nil_r, <- ?app_assoc; reflexivity.

(** X17. Whatever happens, the hook makes at most two requests, in this
    order: one GET of the package address, made as soon as the remote is
    one of Bintray, and one PATCH of the same address.  The PATCH is made
    only after the read and the inspection succeeded and the reconciler
    returned a payload that is not empty; it carries that payload and the
    credentials of the remote, and its address has https in it. *)
Theorem hook_requests w conanfile_path reference remote tr :
  ∃ calls,
    requests (post_upload_recipe w conanfile_path reference remote tr).2
    = (requests tr ++ calls)%list
    ∧ match _get_bintray_package_url w remote reference with
      | Raise _ => calls = []
      | Ok target =>
          calls = [HttpGet target]
          ∨ ∃ r remote_info recipe_info upd u p,
              requests_get w target = Ok r ∧ resp_ok r = true
              ∧ resp_json r = Ok remote_info
              ∧ conan_inspect w conanfile_path = Ok recipe_info
              ∧ _update_package_info w recipe_info remote_info = Ok upd
              ∧ upd ≠ []
              ∧ py_contains "https" target = true
              ∧ _get_credentials w remote = Ok (u, p)
              ∧ calls = [HttpGet target; HttpPatch target upd u p]
      end.
Proof.
  unfold_hook.
  destruct (_get_bintray_package_url w remote reference) as [target|e] eqn:Hu.
  2:{ exists []. split; [|reflexivity]. caught; count_requests. }
  destruct (requests_get w target) as [r|e] eqn:Hg.
  2:{ exists [HttpGet target]. split; [|auto]. caught; count_requests. }
  destruct (resp_ok r) eqn:Hok; cbn [negb].
  2:{ exists [HttpGet target]. split; [|auto].
      rewrite format_get_failed. caught; count_requests. }
  destruct (resp_json r) as [remote_info|e] eqn:Hj.
  2:{ exists [HttpGet target]. split; [|auto]. caught; count_requests. }
  destruct (conan_inspect w conanfile_path) as [recipe_info|e] eqn:Hi.
  2:{ exists [HttpGet target]. split; [|auto]. caught; count_requests. }
  destruct (_update_package_info w recipe_info remote_info)
    as [[|[k v] rest]|e] eqn:Hr.
  1:{ exists [HttpGet target]. split; [|auto]. count_requests. }
  2:{ exists [HttpGet target]. split; [|auto]. caught; count_requests. }
  rewrite format_outdated.
  destruct (py_contains "https" target) eqn:Hs; cbn [negb].
  2:{ exists [HttpGet target]. split; [|auto]. caught; count_requests. }
  destruct (_get_credentials w remote) as [[u p]|e] eqn:Hc.
  2:{ exists [HttpGet target]. split; [|auto]. caught; count_requests. }
  exists [HttpGet target; HttpPatch target ((k, v) :: rest) u p].
  split.
  - destruct (requests_patch w target ((k, v) :: rest) u p) as [r'|e].
    + destruct (resp_ok r'); cbn [negb].
      * destruct (resp_json r'); caught; count_requests.
      * rewrite format_patch_failed. caught; count_requests.
    + caught; count_requests.
  - right. exists r, remote_info, recipe_info, ((k, v) :: rest), u, p.
    repeat split; try assumption. discriminate.
Qed.

Ltac settle_trace :=
  unfold raise; cbn [exn_cls is_Exception exn_str];
  rewrite <- ?app_assoc; reflexivity.

(** X18. When the read request is answered with a status that is not a
    success, the hook stops there: it makes no other request, does not
    inspect the recipe, and writes one error line with the body and the
    status code of the answer. *)
Theorem failed_read_stops_hook w conanfile_path reference remote tr target r :
  _get_bintray_package_url w remote reference = Ok target →
  requests_get w target = Ok r →
  resp_ok r = false →
  post_upload_recipe w conanfile_path reference remote tr
  = (Ok tt,
     (tr ++ [OutInfo "Reading package info form Bintray...";
             HttpGet target;
             OutError ("Could not request package info: " +:+ resp_text r
                       +:+ " (" +:+ pretty (resp_status_code r) +:+ ")")])%list).
Proof.
  intros Hu Hg Hok. unfold_hook. rewrite Hu, Hg, Hok. cbn [negb].
  rewrite format_get_failed. settle_trace.
Qed.

Lemma failed_read_stops_hook_witness :
  post_upload_recipe
    (mk_World ∅ git_on_develop
       (fun _ => Ok (mk_response false "Not found" 404 (Ok ∅)))
       (fun _ _ _ _ => Ok accepted) (fun _ => Ok sample_recipe_info)
       (fun _ => raise ReError "bad pattern"))
    "conanfile.py" httpserver_reference acme_remote []
  = (Ok tt,
     ([] ++ [OutInfo "Reading package info form Bintray...";
             HttpGet "https://api.bintray.com/packages/acme/public-conan/libhttpserver%3Aacme";
             OutError ("Could not request package info: "
                       +:+ resp_text (mk_response false "Not found" 404 (Ok ∅))
                       +:+ " ("
                       +:+ pretty (resp_status_code
                                     (mk_response false "Not found" 404 (Ok ∅)))
                       +:+ ")")])%list).
Proof.
  apply (failed_read_stops_hook
           (mk_World ∅ git_on_develop
              (fun _ => Ok (mk_response false "Not found" 404 (Ok ∅)))
              (fun _ _ _ _ => Ok accepted) (fun _ => Ok sample_recipe_info)
              (fun _ => raise ReError "bad pattern"))
           "conanfile.py" httpserver_reference acme_remote []).
  - vm_compute. reflexivity.
  - reflexivity.
  - reflexivity.
Defined.

Lemma extract_user_repo_cases remote :
  (∃ user repo, _extract_user_repo remote = Ok (user, repo))
  ∨ _extract_user_repo remote
    = raise TypeError "not all arguments converted during string formatting".
Proof.
  destruct (Re.match_ (host_tokens ++ owner_repo_tokens) (url remote))
    as [m|] eqn:E.
  - left.
    destruct (extract_user_repo_on_match _ _ _ compile_bintray_pattern E)
      as (user & repo & _ & _ & H). eauto.
  - right. exact (extract_user_repo_no_match _ _ compile_bintray_pattern E).
Qed.

(** X19. For a remote whose address is not one of Bintray's Conan
    repositories the hook makes no request and reads nothing: it returns
    after one error line, which is the text of the formatting error. *)
Theorem foreign_remote_makes_no_request w conanfile_path reference remote tr :
  returns (_extract_user_repo remote) = false →
  post_upload_recipe w conanfile_path reference remote tr
  = (Ok tt,
     (tr ++ [OutError "not all arguments converted during string formatting"])
     %list).
Proof.
  intros Hr. unfold_hook. unfold _get_bintray_package_url.
  destruct (extract_user_repo_cases remote) as [(user & repo & H)|H];
    rewrite H in *; [discriminate|].
  reflexivity.
Qed.

Lemma foreign_remote_makes_no_request_witness :
  post_upload_recipe plain_http_world "conanfile.py" httpserver_reference
    conan_center []
  = (Ok tt,
     ([] ++ [OutError "not all arguments converted during string formatting"])
     %list).
Proof.
  apply (foreign_remote_makes_no_request plain_http_world).
  vm_compute. reflexivity.
Defined.

(** X20. When the reconciler finds nothing to update the hook ends with the
    line that says so, after one GET and the inspection; no PATCH is made
    and the credentials are not looked up, so the run is the same without
    them. *)
Theorem up_to_date_run w conanfile_path reference remote tr target r
    remote_info recipe_info :
  _get_bintray_package_url w remote reference = Ok target →
  requests_get w target = Ok r →
  resp_ok r = true →
  resp_json r = Ok remote_info →
  conan_inspect w conanfile_path = Ok recipe_info →
  _update_package_info w recipe_info remote_info = Ok [] →
  post_upload_recipe w conanfile_path reference remote tr
  = (Ok tt,
     (tr ++ [OutInfo "Reading package info form Bintray...";
             HttpGet target;
             OutInfo "Inspecting recipe info ...";
             Inspect conanfile_path;
             OutInfo "Bintray package info is up-to-date."])%list).
Proof.
  intros Hu Hg Hok Hj Hi Hr. unfold_hook.
  rewrite Hu, Hg, Hok. cbn [negb]. rewrite Hj, Hi, Hr. settle_trace.
Qed.

Lemma up_to_date_run_witness :
  post_upload_recipe
    (mk_World ∅ git_on_develop
       (fun _ => Ok (mk_response true "" 200 (Ok sample_remote_info)))
       (fun _ _ _ _ => raise OtherException "connection refused")
       (fun _ => Ok empty_recipe_info)
       (fun _ => raise ReError "bad pattern"))
    "conanfile.py" httpserver_reference acme_remote []
  = (Ok tt,
     ([] ++ [OutInfo "Reading package info form Bintray...";
             HttpGet "https://api.bintray.com/packages/acme/public-conan/libhttpserver%3Aacme";
             OutInfo "Inspecting recipe info ...";
             Inspect "conanfile.py";
             OutInfo "Bintray package info is up-to-date."])%list).
Proof.
  apply (up_to_date_run
           (mk_World ∅ git_on_develop
              (fun _ => Ok (mk_response true "" 200 (Ok sample_remote_info)))
              (fun _ _ _ _ => raise OtherException "connection refused")
              (fun _ => Ok empty_recipe_info)
              (fun _ => raise ReError "bad pattern"))
           "conanfile.py" httpserver_reference acme_remote []
           _ (mk_response true "" 200 (Ok sample_remote_info))
           sample_remote_info empty_recipe_info).
  - vm_compute. reflexivity.
  - reflexivity.
  - reflexivity.
  - reflexivity.
  - reflexivity.
  - vm_compute. reflexivity.
Defined.

(** X21. When the reconciler returns a payload that is not empty, the hook
    announces the keys of the payload, in the order of the payload and
    separated by spaces, and sends one PATCH with the payload and the
    credentials.  An answer that is not a success is written as one error
    line with its body; otherwise nothing more is written. *)
Theorem outdated_run w conanfile_path reference remote tr target r
    remote_info recipe_info upd u p r' :
  _get_bintray_package_url w remote reference = Ok target →
  requests_get w target = Ok r →
  resp_ok r = true →
  resp_json r = Ok remote_info →
  conan_inspect w conanfile_path = Ok recipe_info →
  _update_package_info w recipe_info remote_info = Ok upd →
  upd ≠ [] →
  py_contains "https" target = true →
  _get_credentials w remote = Ok (u, p) →
  requests_patch w target upd u p = Ok r' →
  returns (resp_json r') = true →
  post_upload_recipe w conanfile_path reference remote tr
  = (Ok tt,
     (tr ++ [OutInfo "Reading package info form Bintray...";
             HttpGet target;
             OutInfo "Inspecting recipe info ...";
             Inspect conanfile_path;
             OutInfo ("Bintray is outdated. Updating Bintray package info: "
                      +:+ py_join " " (keys upd));
             HttpPatch target upd u p]
         ++ (if resp_ok r' then []
             else [OutError ("Could not patch package info: "
                             +:+ resp_text r')]))%list).
Proof.
  intros Hu Hg Hok Hj Hi Hr Hne Hs Hc Hp Hjson. unfold_hook.
  rewrite Hu, Hg, Hok. cbn [negb]. rewrite Hj, Hi, Hr.
  destruct upd as [|kv rest]; [contradiction|].
  rewrite format_outdated, Hs. cbn [negb]. rewrite Hc, Hp.
  destruct (resp_ok r'); cbn [negb].
  - destruct (resp_json r'); [|discriminate]. rewrite app_nil_r. settle_trace.
  - rewrite format_patch_failed. settle_trace.
Qed.

Lemma outdated_run_witness :
  post_upload_recipe plain_http_world "conanfile.py" httpserver_reference
    acme_remote []
  = (Ok tt,
     ([] ++ [OutInfo "Reading package info form Bintray...";
             HttpGet plain_http_package_url;
             OutInfo "Inspecting recipe info ...";
             Inspect "conanfile.py";
             OutInfo ("Bintray is outdated. Updating Bintray package info: "
                      +:+ py_join " " (keys sample_payload));
             HttpPatch plain_http_package_url sample_payload "bob" "secret"]
         ++ (if resp_ok accepted then []
             else [OutError ("Could not patch package info: "
                             +:+ resp_text accepted)]))%list).
Proof.
  apply (outdated_run plain_http_world "conanfile.py" httpserver_reference
           acme_remote [] plain_http_package_url
           (mk_response true "" 200 (Ok sample_remote_info))
           sample_remote_info sample_recipe_info sample_payload
           "bob" "secret" accepted).
  - vm_compute. reflexivity.
  - reflexivity.
  - reflexivity.
  - reflexivity.
  - reflexivity.
  - vm_compute. reflexivity.
  - discriminate.
  - vm_compute. reflexivity.
  - vm_compute. reflexivity.
  - reflexivity.
  - reflexivity.
Defined.

(** ** Branches announced by a CI system *)

Lemma ci_branch_Some env l b :
  ci_branch env l = Some b →
  b ≠ "" ∧ ∃ ci var, (ci, var) ∈ l ∧ env_truthy (env !! ci) = true
                     ∧ env !! var = Some b.
Proof.
  induction l as [|[ci var] l IH]; cbn [ci_branch]; [discriminate|].
  destruct (env_truthy (env !! ci)) eqn:E1; cbn [andb].
  - destruct (env_truthy (env !! var)) eqn:E2.
    + intros H. apply env_truthy_Some in E2 as (s & Es & Hs).
      rewrite Es in H. injection H as <-. split; [assumption|].
      exists ci, var. split; [apply list_elem_of_here | auto].
    + intros H. destruct (IH H) as (Hb & ci' & var' & Hin & ?).
      split; [assumption|]. exists ci', var'.
      split; [apply list_elem_of_further|]; assumption.
  - intros H. destruct (IH H) as (Hb & ci' & var' & Hin & ?).
    split; [assumption|]. exists ci', var'.
    split; [apply list_elem_of_further|]; assumption.
Qed.

Lemma ci_branch_found env l ci var b :
  (ci, var) ∈ l → env_truthy (env !! ci) = true → env !! var = Some b →
  b ≠ "" → ∃ b', ci_branch env l = Some b'.
Proof.
  intros Hin Hci Hvar Hb.
  induction l as [|[ci0 var0] l IH]; [inversion Hin|]. cbn [ci_branch].
  destruct (env_truthy (env !! ci0) && env_truthy (env !! var0)) eqn:E.
  - apply andb_true_iff in E as [_ E].
    apply env_truthy_Some in E as (s & -> & _). eauto.
  - apply elem_of_cons in Hin as [[= <- <-]|Hin]; [|auto].
    rewrite Hci, Hvar in E. cbn in E.
    destruct (String.eqb_spec b "") as [->|_]; [contradiction | discriminate].
Qed.

(** X22. A branch announced by a CI system takes precedence over git: as
    soon as one of the six systems has both its marker and its branch
    variable set and not empty, [_get_branch] returns the branch of such a
    system, which is not empty, and the git command does not matter, not
    even its failure. *)
Theorem ci_branch_takes_precedence w ci var b :
  (ci, var) ∈ ci_manager →
  env_truthy (environ w !! ci) = true →
  environ w !! var = Some b →
  b ≠ "" →
  ∃ b', _get_branch w = Ok (Some b') ∧ b' ≠ ""
    ∧ ∃ ci' var', (ci', var') ∈ ci_manager
        ∧ env_truthy (environ w !! ci') = true
        ∧ environ w !! var' = Some b'.
Proof.
  intros Hin Hci Hvar Hb.
  destruct (ci_branch_found _ _ _ _ _ Hin Hci Hvar Hb) as [b' Hb'].
  exists b'. unfold _get_branch. rewrite Hb'.
  split; [reflexivity|]. apply (ci_branch_Some _ _ _ Hb').
Qed.

Lemma ci_branch_takes_precedence_witness :
  ∃ b',
    _get_branch
      (offline_world travis_on_master (raise KeyboardInterrupt "interrupted"))
    = Ok (Some b') ∧ b' ≠ ""
    ∧ ∃ ci' var', (ci', var') ∈ ci_manager
        ∧ env_truthy
            (environ
               (offline_world travis_on_master
                  (raise KeyboardInterrupt "interrupted")) !! ci') = true
        ∧ environ
            (offline_world travis_on_master
               (raise KeyboardInterrupt "interrupted")) !! var' = Some b'.
Proof.
  apply (ci_branch_takes_precedence
           (offline_world travis_on_master
              (raise KeyboardInterrupt "interrupted"))
           "TRAVIS" "TRAVIS_BRANCH" "master").
  - apply list_elem_of_here.
  - reflexivity.
  - reflexivity.
  - discriminate.
Defined.
